(** * Value Domain provider: the record-set logic of [valuedomain.py]

    A shallow embedding of [lexicon/providers/valuedomain.py] and the
    properties of its zone codec, identifier scheme and record
    operations.

    Modelling conventions.
    - A Python [str] is a [string]; a character stands for the code
      point of the same number, so the model covers the strings over
      U+0000..U+00FF.  [str.lower], [str.splitlines] and the regular
      expression class [\s] are written out for that range.
    - A record is a Python tuple of strings, here a [list string]:
      the parser produces tuples of one to three fields.
    - Optional arguments ([identifier=None], ...) are [option string];
      Python truthiness of such an argument is [given].
    - Exceptions are the [Raise] results of an error monad; the remote
      zone is an explicit state threaded through the operations. *)

From Stdlib Require Import List String Ascii ZArith Lia Bool Arith.
Import ListNotations.
Open Scope string_scope.
Open Scope Z_scope.

(** ** Python strings *)

Module PyStr.

Definition ord (c : ascii) : Z := Z.of_nat (nat_of_ascii c).
Definition chr (n : Z) : ascii := ascii_of_nat (Z.to_nat n).

(** [c.lower()] for one character of U+0000..U+00FF: the letters A-Z
    and the Latin-1 capitals U+00C0..U+00DE (the sign U+00D7 apart)
    move up by 32. *)
Definition lower_char (c : ascii) : ascii :=
  let n := ord c in
  if ((65 <=? n) && (n <=? 90))
     || ((192 <=? n) && (n <=? 222) && negb (n =? 215))
  then chr (n + 32) else c.

(** [s.lower()] *)
Fixpoint lower (s : string) : string :=
  match s with
  | EmptyString => EmptyString
  | String c s' => String (lower_char c) (lower s')
  end.

(** [c.isspace()], which is also the class [\s] of [re] on [str]
    patterns: TAB..CR, FS..US, space, NEL and no-break space. *)
Definition isspace (c : ascii) : bool :=
  let n := ord c in
  ((9 <=? n) && (n <=? 13)) || ((28 <=? n) && (n <=? 32))
  || (n =? 133) || (n =? 160).

(** The line boundaries of [str.splitlines]: LF, VT, FF, CR, FS, GS,
    RS and NEL. *)
Definition islinebreak (c : ascii) : bool :=
  let n := ord c in
  ((10 <=? n) && (n <=? 13)) || ((28 <=? n) && (n <=? 30)) || (n =? 133).

(** [s.endswith(".")] *)
Fixpoint endswith_dot (s : string) : bool :=
  match s with
  | EmptyString => false
  | String c EmptyString => Ascii.eqb c "."
  | String _ s' => endswith_dot s'
  end.

(** [s.splitlines()]: [line] is the line read so far.  A CR LF pair
    is one boundary; text after the last boundary is a line only when
    it is not empty. *)
Fixpoint splitlines_from (line : string) (s : string) : list string :=
  match s with
  | EmptyString =>
      match line with EmptyString => [] | _ => [line] end
  | String c s' =>
      if islinebreak c then
        line :: match s' with
                | String d s'' =>
                    if Ascii.eqb c "013" && Ascii.eqb d "010"
                    then splitlines_from EmptyString s''
                    else splitlines_from EmptyString s'
                | EmptyString => splitlines_from EmptyString s'
                end
      else splitlines_from (line ++ String c EmptyString) s'
  end.

Definition splitlines (s : string) : list string :=
  splitlines_from EmptyString s.

(** [re.split(r'\s+', s, maxsplit)]: [in_match] says that the
    characters just read belong to a match of [\s+], which extends
    over the whole run of white space; [piece] is the field read so
    far.  Once [maxsplit] matches are used up, the rest of the string
    is the last field. *)
Fixpoint re_split_from (maxsplit : nat) (in_match : bool)
         (piece : string) (s : string) : list string :=
  match s with
  | EmptyString => [piece]
  | String c s' =>
      if in_match && isspace c then re_split_from maxsplit true piece s'
      else
        match maxsplit with
        | O => [piece ++ s]
        | S m =>
            if isspace c
            then piece :: re_split_from m true EmptyString s'
            else re_split_from maxsplit false
                               (piece ++ String c EmptyString) s'
        end
  end.

Definition re_split_space (s : string) (maxsplit : nat) : list string :=
  re_split_from maxsplit false EmptyString s.

(** [sep.join(parts)] is [String.concat sep parts]. *)
Definition join (sep : string) (parts : list string) : string :=
  String.concat sep parts.

(** [s.encode('utf-8')] for code points below U+0100: one byte below
    U+0080, two bytes from there on. *)
Definition encode_char (c : ascii) : list Z :=
  let n := ord c in
  if n <? 128 then [n]
  else [Z.lor 192 (Z.shiftr n 6); Z.lor 128 (Z.land n 63)].

Fixpoint encode_utf8 (s : string) : list Z :=
  match s with
  | EmptyString => []
  | String c s' => encode_char c ++ encode_utf8 s'
  end.

End PyStr.

(** ** SHA-256 (FIPS 180-4), the hash behind [hashlib.sha256] *)

Module SHA256.

Definition modulus : Z := 2 ^ 32.
Definition add32 (x y : Z) : Z := (x + y) mod modulus.
Definition rotr (n x : Z) : Z :=
  Z.lor (Z.shiftr x n) ((Z.shiftl x (32 - n)) mod modulus).
Definition not32 (x : Z) : Z := Z.lxor x (modulus - 1).

Definition Ch (x y z : Z) : Z := Z.lxor (Z.land x y) (Z.land (not32 x) z).
Definition Maj (x y z : Z) : Z :=
  Z.lxor (Z.lxor (Z.land x y) (Z.land x z)) (Z.land y z).
Definition Sigma0 (x : Z) : Z :=
  Z.lxor (Z.lxor (rotr 2 x) (rotr 13 x)) (rotr 22 x).
Definition Sigma1 (x : Z) : Z :=
  Z.lxor (Z.lxor (rotr 6 x) (rotr 11 x)) (rotr 25 x).
Definition sigma0 (x : Z) : Z :=
  Z.lxor (Z.lxor (rotr 7 x) (rotr 18 x)) (Z.shiftr x 3).
Definition sigma1 (x : Z) : Z :=
  Z.lxor (Z.lxor (rotr 17 x) (rotr 19 x)) (Z.shiftr x 10).

(** The constants are the first 32 bits of the fractional parts of
    the square roots (initial state) and cube roots (round constants)
    of the first primes. *)
Definition primes : list Z :=
  [2; 3; 5; 7; 11; 13; 17; 19; 23; 29; 31; 37; 41; 43; 47; 53;
   59; 61; 67; 71; 73; 79; 83; 89; 97; 101; 103; 107; 109; 113; 127; 131;
   137; 139; 149; 151; 157; 163; 167; 173; 179; 181; 191; 193; 197; 199;
   211; 223; 227; 229; 233; 239; 241; 251; 257; 263; 269; 271; 277; 281;
   283; 293; 307; 311].

(** Integer cube root, one bit at a time from bit [bits - 1] down. *)
Fixpoint cbrt_bits (bits : nat) (n r : Z) : Z :=
  match bits with
  | O => r
  | S b =>
      let r' := r + 2 ^ Z.of_nat b in
      cbrt_bits b n (if r' * r' * r' <=? n then r' else r)
  end.

Definition frac_sqrt (p : Z) : Z := Z.sqrt (p * 2 ^ 64) mod modulus.
Definition frac_cbrt (p : Z) : Z := cbrt_bits 36 (p * 2 ^ 96) 0 mod modulus.

Definition K : list Z := Eval vm_compute in map frac_cbrt primes.
Definition H0 : list Z := Eval vm_compute in map frac_sqrt (firstn 8 primes).

(** Padding: a 1 bit, zeros, and the bit length on 64 bits, up to a
    multiple of 64 bytes. *)
Fixpoint be_bytes (count : nat) (x : Z) : list Z :=
  match count with
  | O => []
  | S k => Z.shiftr x (8 * Z.of_nat k) mod 256 :: be_bytes k x
  end.

Definition pad (msg : list Z) : list Z :=
  let len := Z.of_nat (List.length msg) in
  msg ++ [128] ++ repeat 0 (Z.to_nat ((55 - len) mod 64))
      ++ be_bytes 8 (8 * len).

Fixpoint be_words (count : nat) (bytes : list Z) : list Z :=
  match count, bytes with
  | S k, b0 :: b1 :: b2 :: b3 :: rest =>
      (((b0 * 256 + b1) * 256 + b2) * 256 + b3) :: be_words k rest
  | _, _ => []
  end.

(** Message schedule, kept most recent word first. *)
Fixpoint schedule (count : nat) (rev_w : list Z) : list Z :=
  match count with
  | O => rev_w
  | S k =>
      let w := add32 (add32 (sigma1 (nth 1 rev_w 0)) (nth 6 rev_w 0))
                     (add32 (sigma0 (nth 14 rev_w 0)) (nth 15 rev_w 0)) in
      schedule k (w :: rev_w)
  end.

Record state := mkState { sa : Z; sb : Z; sc : Z; sd : Z;
                          se : Z; sf : Z; sg : Z; sh : Z }.

Definition round (s : state) (kw : Z * Z) : state :=
  let t1 := add32 (add32 (add32 (sh s) (Sigma1 (se s)))
                         (add32 (Ch (se s) (sf s) (sg s)) (fst kw)))
                  (snd kw) in
  let t2 := add32 (Sigma0 (sa s)) (Maj (sa s) (sb s) (sc s)) in
  mkState (add32 t1 t2) (sa s) (sb s) (sc s)
          (add32 (sd s) t1) (se s) (sf s) (sg s).

Definition compress (s : state) (block : list Z) : state :=
  let w := rev (schedule 48 (rev (be_words 16 block))) in
  let r := fold_left round (combine K w) s in
  mkState (add32 (sa s) (sa r)) (add32 (sb s) (sb r))
          (add32 (sc s) (sc r)) (add32 (sd s) (sd r))
          (add32 (se s) (se r)) (add32 (sf s) (sf r))
          (add32 (sg s) (sg r)) (add32 (sh s) (sh r)).

Fixpoint blocks (count : nat) (bytes : list Z) (s : state) : state :=
  match count with
  | O => s
  | S k => blocks k (skipn 64 bytes) (compress s (firstn 64 bytes))
  end.

Definition init : state :=
  mkState (nth 0 H0 0) (nth 1 H0 0) (nth 2 H0 0) (nth 3 H0 0)
          (nth 4 H0 0) (nth 5 H0 0) (nth 6 H0 0) (nth 7 H0 0).

Definition digest (msg : list Z) : state :=
  let padded := pad msg in
  blocks (List.length padded / 64)%nat padded init.

Definition hex_digit (n : Z) : ascii :=
  PyStr.chr (if n <? 10 then 48 + n else 87 + n).

Fixpoint hex_word (digits : nat) (x : Z) : string :=
  match digits with
  | O => EmptyString
  | S k =>
      String (hex_digit (Z.shiftr x (4 * Z.of_nat k) mod 16)) (hex_word k x)
  end.

Definition hex (s : state) : string :=
  hex_word 8 (sa s) ++ hex_word 8 (sb s) ++ hex_word 8 (sc s)
  ++ hex_word 8 (sd s) ++ hex_word 8 (se s) ++ hex_word 8 (sf s)
  ++ hex_word 8 (sg s) ++ hex_word 8 (sh s).

(** The [hashlib] object: [update] feeds bytes, [hexdigest] hashes
    everything fed so far. *)
Definition hasher := list Z.
Definition new : hasher := [].
Definition update (h : hasher) (data : list Z) : hasher := (h ++ data)%list.
Definition hexdigest (h : hasher) : string := hex (digest h).

End SHA256.

(** ** Exceptions and the two monads *)

Inductive exn : Type :=
| Exception (msg : string)  (* [raise Exception(msg)] *)
| IndexError                (* a tuple or list index out of range *)
| ValueError.               (* [list.remove(x)] with [x] not in the list *)

Inductive result (A : Type) : Type :=
| Ok (a : A)
| Raise (e : exn).
Arguments Ok {A} a.
Arguments Raise {A} e.

Definition rbind {A B} (c : result A) (k : A -> result B) : result B :=
  match c with
  | Ok a => k a
  | Raise e => Raise e
  end.

Notation "'let*' x ':=' c 'in' k" := (rbind c (fun x => k))
  (at level 61, x name, c at next level, right associativity).

(** The vendor holds the zone text of the provider's domain.  [zone] is
    that text (the [records] entry of the answer to a GET), [puts] the
    bodies of the PUT requests issued so far, oldest first.  Transport
    failures are outside the model: every request is answered. *)
Record put_body : Type := mkBody {
  ns_type : string;
  records : string;
  ttl : option Z
}.

Record world : Type := mkWorld {
  zone : string;
  puts : list put_body
}.

Definition M (A : Type) : Type := world -> result A * world.

Definition ret {A} (a : A) : M A := fun w => (Ok a, w).
Definition raise {A} (e : exn) : M A := fun w => (Raise e, w).
Definition lift {A} (c : result A) : M A := fun w => (c, w).
Definition bind {A B} (c : M A) (k : A -> M B) : M B :=
  fun w =>
    match c w with
    | (Ok a, w') => k a w'
    | (Raise e, w') => (Raise e, w')
    end.

Notation "x <- c ;; k" := (bind c (fun x => k))
  (at level 61, c at next level, right associativity).
Notation "c ;; k" := (bind c (fun _ => k))
  (at level 61, right associativity).

(** [self._get(url)["results"]["records"]] *)
Definition _get_records : M string := fun w => (Ok (zone w), w).

(** [self._put(url, content)]: the vendor replaces the whole zone text. *)
Definition _put (content : put_body) : M unit :=
  fun w => (Ok tt, mkWorld (records content) (puts w ++ [content])).

(** ** Records, tuples and lists *)

Definition record : Type := list string.

Definition LF : string := String "010" EmptyString.

(** [record[i]] *)
Definition getitem (rec : record) (i : nat) : result string :=
  match nth_error rec i with
  | Some field => Ok field
  | None => Raise IndexError
  end.

(** Equality of tuples of strings. *)
Fixpoint record_eqb (r1 r2 : record) : bool :=
  match r1, r2 with
  | [], [] => true
  | f1 :: r1', f2 :: r2' => String.eqb f1 f2 && record_eqb r1' r2'
  | _, _ => false
  end.

(** [l[index] = x] *)
Fixpoint setitem_nat {A} (l : list A) (n : nat) (x : A) : result (list A) :=
  match l, n with
  | [], _ => Raise IndexError
  | _ :: l', O => Ok (x :: l')
  | y :: l', S n' => let* r := setitem_nat l' n' x in Ok (y :: r)
  end.

Definition setitem {A} (l : list A) (index : Z) (x : A) : result (list A) :=
  let i := if index <? 0 then index + Z.of_nat (List.length l) else index in
  if i <? 0 then Raise IndexError else setitem_nat l (Z.to_nat i) x.

(** [l.remove(x)]: the first element equal to [x] goes. *)
Fixpoint list_remove (l : list record) (x : record) : result (list record) :=
  match l with
  | [] => Raise ValueError
  | y :: l' =>
      if record_eqb y x then Ok l'
      else let* r := list_remove l' x in Ok (y :: r)
  end.

(** An optional argument counts in a condition when it is neither
    [None] nor the empty string. *)
Definition given (arg : option string) : option string :=
  match arg with
  | Some EmptyString => None
  | _ => arg
  end.

(** [arg and test(arg)] *)
Definition check (arg : option string) (test : string -> result bool)
  : result bool :=
  match given arg with
  | Some a => test a
  | None => Ok false
  end.

(** ** The provider *)

(** [Provider._identifier(record)] *)
Definition _identifier (rec : record) : result string :=
  let sha256 := SHA256.new in
  let* r0 := getitem rec 0 in
  let sha256 :=
    SHA256.update sha256 (PyStr.encode_utf8 ("type=" ++ PyStr.lower r0)) in
  let* r1 := getitem rec 1 in
  let sha256 := SHA256.update sha256 (PyStr.encode_utf8 ("name=" ++ r1)) in
  let* r2 := getitem rec 2 in
  let sha256 := SHA256.update sha256 (PyStr.encode_utf8 ("data=" ++ r2)) in
  Ok (substring 0 7 (SHA256.hexdigest sha256)).

(** [_bind_format_target(rtype, target)]; [rtype] is [None] when
    [_delete_record] is called without a type. *)
Definition _bind_format_target (rtype : option string) (target : string)
  : string :=
  let is_cname :=
    match rtype with Some t => String.eqb t "CNAME" | None => false end in
  if is_cname && negb (PyStr.endswith_dot target)
  then target ++ "." else target.

(** The loop of [_find_resource_record_set]; [index] is the position
    of the head of [recs] in the whole list. *)
Fixpoint find_from (index : Z) (recs : list record)
         (identifier rtype name content : option string) : result Z :=
  match recs with
  | [] => Ok (-1)
  | rec :: rest =>
      let* hit := check identifier (fun id =>
                    let* i := _identifier rec in Ok (String.eqb i id)) in
      if hit then Ok index else
      let* other_type := check rtype (fun t =>
                    let* r0 := getitem rec 0 in
                    Ok (negb (String.eqb (PyStr.lower r0) (PyStr.lower t)))) in
      if other_type then find_from (index + 1) rest identifier rtype name content
      else
      let* other_name := check name (fun n =>
                    let* r1 := getitem rec 1 in Ok (negb (String.eqb r1 n))) in
      if other_name then find_from (index + 1) rest identifier rtype name content
      else
      let* other_content := check content (fun c =>
                    let* r2 := getitem rec 2 in Ok (negb (String.eqb r2 c))) in
      if other_content
      then find_from (index + 1) rest identifier rtype name content
      else Ok index
  end.

Definition _find_resource_record_set (recs : list record)
           (identifier rtype name content : option string) : result Z :=
  find_from 0 recs identifier rtype name content.

(** The body of the first loop of [_delete_record]: whether [rec]
    passes all the given filters and is appended to
    [filtered_records]. *)
Definition delete_selects (identifier rtype name content : option string)
           (rec : record) : result bool :=
  let* other_id := check identifier (fun id =>
                let* i := _identifier rec in Ok (negb (String.eqb i id))) in
  if other_id then Ok false else
  let* other_type := check rtype (fun t =>
                let* r0 := getitem rec 0 in
                Ok (negb (String.eqb (PyStr.lower r0) (PyStr.lower t)))) in
  if other_type then Ok false else
  let* other_name := check name (fun n =>
                let* r1 := getitem rec 1 in Ok (negb (String.eqb r1 n))) in
  if other_name then Ok false else
  let* other_content := check content (fun c =>
                let* r2 := getitem rec 2 in Ok (negb (String.eqb r2 c))) in
  if other_content then Ok false else Ok true.

(** The first loop of [_delete_record]: the records that pass, in
    order. *)
Fixpoint filtered_records (recs : list record)
         (identifier rtype name content : option string)
  : result (list record) :=
  match recs with
  | [] => Ok []
  | rec :: rest =>
      let* keep := delete_selects identifier rtype name content rec in
      let* more := filtered_records rest identifier rtype name content in
      Ok (if keep then rec :: more else more)
  end.

(** The second loop of [_delete_record]. *)
Fixpoint remove_each (filtered : list record) (recs : list record)
  : result (list record) :=
  match filtered with
  | [] => Ok recs
  | rec :: more => let* recs' := list_remove recs rec in remove_each more recs'
  end.

(** The text codec inside [_get_resource_record_sets] and
    [_update_resource_record_sets]. *)
Definition parse_records (blob : string) : list record :=
  map (fun line => PyStr.re_split_space line 2) (PyStr.splitlines blob).

Definition record_txt (recs : list record) : string :=
  PyStr.join LF (map (fun rec => PyStr.join " " rec) recs).

Definition invalid_arguments : exn :=
  Exception "rtype ,name and content must be specified.".

Section Provider.

(** The instance: [self.nameserver], the [ttl] option of the
    configuration, and [_relative_name] of the framework's base
    class. *)
Variable nameserver : string.
Variable ttl_option : option Z.
Variable base_relative_name : string -> string.

Definition _relative_name (record_name : string) : string :=
  let name := base_relative_name record_name in
  match name with
  | EmptyString => "@"
  | _ => name
  end.

Definition _get_resource_record_sets : M (list record) :=
  blob <- _get_records ;;
  ret (parse_records blob).

Definition _update_resource_record_sets (rrs : list record) : M unit :=
  _put (mkBody nameserver (record_txt rrs) ttl_option).

Definition _create_record (rtype name content : string) : M bool :=
  let name := _relative_name name in
  rrs <- _get_resource_record_sets ;;
  index <- lift (_find_resource_record_set rrs None (Some rtype)
                   (Some name) (Some content)) ;;
  if index >=? 0 then ret true
  else
    let rrs := (rrs ++ [[PyStr.lower rtype; name;
                         _bind_format_target (Some rtype) content]])%list in
    _update_resource_record_sets rrs ;;
    ret true.

Definition _update_record (identifier rtype name content : option string)
  : M bool :=
  match given rtype, given name, given content with
  | Some rtype, Some name, Some content =>
      let name := _relative_name name in
      rrs <- _get_resource_record_sets ;;
      index <- lift (_find_resource_record_set rrs identifier (Some rtype)
                       (Some name) None) ;;
      let rec := [PyStr.lower rtype; name;
                  _bind_format_target (Some rtype) content] in
      rrs <- (if index >=? 0 then lift (setitem rrs index rec)
              else ret (rrs ++ [rec])%list) ;;
      _update_resource_record_sets rrs ;;
      ret true
  | _, _, _ => raise invalid_arguments
  end.

Definition _delete_record (identifier rtype name content : option string)
  : M bool :=
  rrs <- _get_resource_record_sets ;;
  let name := option_map _relative_name name in
  let content := option_map (_bind_format_target rtype) content in
  filtered <- lift (filtered_records rrs identifier rtype name content) ;;
  match filtered with
  | [] => ret false
  | _ =>
      rrs <- lift (remove_each filtered rrs) ;;
      _update_resource_record_sets rrs ;;
      ret true
  end.

End Provider.

(** ** Vocabulary of the properties *)

(** A full triplet [(type, name, content)]. *)
Definition is_triplet (rec : record) : Prop := List.length rec = 3%nat.

Fixpoint str_forallb (p : ascii -> bool) (s : string) : bool :=
  match s with
  | EmptyString => true
  | String c s' => p c && str_forallb p s'
  end.

Definition no_space (s : string) : bool :=
  str_forallb (fun c => negb (PyStr.isspace c)) s.

Definition no_linebreak (s : string) : bool :=
  str_forallb (fun c => negb (PyStr.islinebreak c)) s.

Definition starts_with_space (s : string) : bool :=
  match s with
  | EmptyString => false
  | String c _ => PyStr.isspace c
  end.

Fixpoint ends_with_space (s : string) : bool :=
  match s with
  | EmptyString => false
  | String c EmptyString => PyStr.isspace c
  | String _ s' => ends_with_space s'
  end.

Definition nonempty (s : string) : bool :=
  match s with
  | EmptyString => false
  | _ => true
  end.

(** A well-formed triplet: three non-empty fields, no white space in
    the type and the name, a content that neither starts nor ends with
    white space and holds no line break. *)
Definition well_formed (rec : record) : bool :=
  match rec with
  | [rtype; name; content] =>
      nonempty rtype && nonempty name && nonempty content
      && no_space rtype && no_space name
      && negb (starts_with_space content) && negb (ends_with_space content)
      && no_linebreak content
  | _ => false
  end.

(** The position of the first record whose type is [rtype] up to case
    and whose name is [name]; the content of the records is not
    looked at. *)
Fixpoint first_type_name (rtype name : string) (recs : list record)
  : option nat :=
  match recs with
  | [] => None
  | rec :: rest =>
      if String.eqb (PyStr.lower (nth 0 rec "")) (PyStr.lower rtype)
         && String.eqb (nth 1 rec "") name
      then Some O
      else option_map S (first_type_name rtype name rest)
  end.

(** [recs] with the element at position [i] replaced by [rec]. *)
Definition replace_at (i : nat) (rec : record) (recs : list record)
  : list record :=
  (firstn i recs ++ rec :: skipn (S i) recs)%list.

(** An argument that is present and not empty. *)
Definition provided (arg : option string) : bool :=
  match given arg with
  | Some _ => true
  | None => false
  end.

(** The world once the zone has been overwritten with [recs]. *)
Definition stored (nameserver : string) (ttl_option : option Z)
           (w : world) (recs : list record) : world :=
  mkWorld (record_txt recs)
          (puts w ++ [mkBody nameserver (record_txt recs) ttl_option]).

(** Whether the first loop of [_delete_record] selects [rec]. *)
Definition selected (identifier rtype name content : option string)
           (rec : record) : bool :=
  match delete_selects identifier rtype name content rec with
  | Ok keep => keep
  | Raise _ => false
  end.

(** ** Listing *)

(** One entry of the list that [_list_records] returns: the
    dictionary with the keys [type], [name], [ttl], [content] and
    [id]. *)
Record exposed : Type := mkExposed {
  ex_type : string;
  ex_name : string;
  ex_ttl : Z;
  ex_content : string;
  ex_id : string
}.

Section Listing.

(** The instance: [self.ttl], [self.domain], [_full_name] of the
    framework's base class, and [str.upper].  The upper case of
    U+00B5 and of U+00FF lies outside the code points of the model,
    so the method is a parameter. *)
Variable self_ttl : Z.
Variable domain : string.
Variable base_full_name : string -> string.
Variable str_upper : string -> string.

Definition _full_name (record_name : string) : string :=
  let record_name :=
    if String.eqb record_name "@" then domain else record_name in
  base_full_name record_name.

(** The dictionary built at the head of the loop of
    [_list_records]. *)
Definition processed_record (rec : record) : result exposed :=
  let* r0 := getitem rec 0 in
  let* r1 := getitem rec 1 in
  let* r2 := getitem rec 2 in
  let* i := _identifier rec in
  Ok (mkExposed (str_upper r0) (_full_name r1) self_ttl r2 i).

(** The three tests of the loop: whether the entry is appended. *)
Definition list_keeps (rtype full_name content : option string)
           (p : exposed) : bool :=
  let other_type :=
    match given rtype with
    | Some t => negb (String.eqb (PyStr.lower (ex_type p)) (PyStr.lower t))
    | None => false
    end in
  let other_name :=
    match given full_name with
    | Some n => negb (String.eqb (ex_name p) n)
    | None => false
    end in
  let other_content :=
    match given content with
    | Some c => negb (String.eqb (ex_content p) c)
    | None => false
    end in
  if other_type then false
  else if other_name then false
  else if other_content then false
  else true.

Fixpoint list_loop (recs : list record)
         (rtype full_name content : option string)
  : result (list exposed) :=
  match recs with
  | [] => Ok []
  | rec :: rest =>
      let* p := processed_record rec in
      let* more := list_loop rest rtype full_name content in
      Ok (if list_keeps rtype full_name content p then p :: more else more)
  end.

(** The entry for a record with its three fields. *)
Definition exposed_of (rec : record) : exposed :=
  mkExposed (str_upper (nth 0 rec "")) (_full_name (nth 1 rec ""))
            self_ttl (nth 2 rec "")
            match _identifier rec with
            | Ok i => i
            | Raise _ => ""
            end.

Definition _list_records (rtype name content : option string)
  : M (list exposed) :=
  let full_name := option_map _full_name (given name) in
  rrs <- _get_resource_record_sets ;;
  lift (list_loop rrs rtype full_name content).

End Listing.

(** ** More vocabulary *)

(** What the text codec needs to give a tuple back: three fields, no
    white space in the type and in the name, a name that is not
    empty, a content that does not start with white space and holds
    no line break. *)
Definition storable (rec : record) : bool :=
  match rec with
  | [rtype; name; content] =>
      no_space rtype && nonempty name && no_space name
      && negb (starts_with_space content) && no_linebreak content
  | _ => false
  end.

(** One of the digits [0-9a-f]. *)
Definition is_hex_digit (c : ascii) : bool :=
  let n := PyStr.ord c in
  ((48 <=? n) && (n <=? 57)) || ((97 <=? n) && (n <=? 102)).

(** A given argument agrees with a field; an absent one agrees with
    every field. *)
Definition agrees (arg : option string) (field : string -> string)
           (value : string) : bool :=
  match given arg with
  | Some a => String.eqb (field value) (field a)
  | None => true
  end.

(** The record that a search accepts: its identifier is the given one,
    or its fields agree with all the given ones (the type up to
    case). *)
Definition accepts (identifier rtype name content : option string)
           (rec : record) : bool :=
  match given identifier, _identifier rec with
  | Some id, Ok i => String.eqb i id
  | _, _ => false
  end
  || (agrees rtype PyStr.lower (nth 0 rec "")
      && agrees name (fun s => s) (nth 1 rec "")
      && agrees content (fun s => s) (nth 2 rec "")).

(** The position of the first element that passes a test. *)
Fixpoint first_index {A} (p : A -> bool) (l : list A) : option nat :=
  match l with
  | [] => None
  | x :: l' => if p x then Some O else option_map S (first_index p l')
  end.

(** An operation that ends in [out] from the world [w] has stored the
    zone at most once, and not at all when it raised. *)
Definition stores_at_most_once (nameserver : string) (ttl_option : option Z)
           (w : world) (out : result bool * world) : Prop :=
  match fst out with
  | Raise _ => snd out = w
  | Ok b =>
      snd out = w
      \/ (b = true
          /\ exists recs, snd out = stored nameserver ttl_option w recs)
  end.

(** * Properties *)

(** ** SHA-256 against the published test vectors *)

Example sha256_abc :
  SHA256.hexdigest (SHA256.update SHA256.new (PyStr.encode_utf8 "abc"))
  = "ba7816bf8f01cfea414140de5dae2223b00361a396177a9cb410ff61f20015ad".
Proof. vm_compute. reflexivity. Qed.

Example sha256_empty :
  SHA256.hexdigest SHA256.new
  = "e3b0c44298fc1c149afbf4c8996fb92427ae41e4649b934ca495991b7852b855".
Proof. vm_compute. reflexivity. Qed.

(** ** Strings *)

Lemma str_app_nil_r (s : string) : s ++ "" = s.
Proof. induction s as [|c s IH]; simpl; [reflexivity | now rewrite IH]. Qed.

Lemma str_app_assoc (a b c : string) : (a ++ b) ++ c = a ++ (b ++ c).
Proof. induction a as [|x a IH]; simpl; [reflexivity | now rewrite IH]. Qed.

Lemma str_length_app (a b : string) :
  String.length (a ++ b) = (String.length a + String.length b)%nat.
Proof. induction a as [|x a IH]; simpl; [reflexivity | now rewrite IH]. Qed.

Lemma encode_utf8_app (a b : string) :
  PyStr.encode_utf8 (a ++ b)
  = (PyStr.encode_utf8 a ++ PyStr.encode_utf8 b)%list.
Proof.
  induction a as [|x a IH]; simpl; [reflexivity|].
  now rewrite IH, app_assoc.
Qed.

Lemma substring_length (n : nat) (s : string) :
  (n <= String.length s)%nat -> String.length (substring 0 n s) = n.
Proof.
  revert s; induction n as [|n IH]; intros [|c s] H; simpl in *;
    try reflexivity; try lia.
  rewrite IH; [reflexivity | lia].
Qed.

Lemma hex_word_length (digits : nat) (x : Z) :
  String.length (SHA256.hex_word digits x) = digits.
Proof. induction digits as [|k IH]; simpl; [reflexivity | now rewrite IH]. Qed.

Lemma hexdigest_length (h : SHA256.hasher) :
  String.length (SHA256.hexdigest h) = 64%nat.
Proof.
  unfold SHA256.hexdigest, SHA256.hex.
  now rewrite !str_length_app, !hex_word_length.
Qed.

(** ** The identifier *)

Lemma identifier_triplet (rtype name content : string) :
  _identifier [rtype; name; content]
  = Ok (substring 0 7
          (SHA256.hexdigest
             (PyStr.encode_utf8 ("type=" ++ PyStr.lower rtype)
              ++ PyStr.encode_utf8 ("name=" ++ name)
              ++ PyStr.encode_utf8 ("data=" ++ content))%list)).
Proof.
  unfold _identifier, SHA256.update, SHA256.new; cbn [getitem nth_error rbind].
  now rewrite <- app_assoc.
Qed.

(** C9.  For every triplet, the identifier is the first 7 characters
    of the hexadecimal SHA-256 digest of the UTF-8 encoding of
    ["type=" + lower(type) + "name=" + name + "data=" + content]; being
    a function of the triplet, it is the same for identical triplets. *)
Theorem identifier_is_hash_prefix (rtype name content : string) :
  let id :=
    substring 0 7
      (SHA256.hex
         (SHA256.digest
            (PyStr.encode_utf8
               ("type=" ++ PyStr.lower rtype
                ++ "name=" ++ name ++ "data=" ++ content)))) in
  _identifier [rtype; name; content] = Ok id /\ String.length id = 7%nat.
Proof.
  assert (E : forall a b c d e : string,
             PyStr.encode_utf8 (a ++ b ++ c ++ d ++ e)
             = (PyStr.encode_utf8 (a ++ b) ++ PyStr.encode_utf8 (c ++ d)
                ++ PyStr.encode_utf8 e)%list).
  { intros. rewrite <- (str_app_assoc a b), <- (str_app_assoc c d).
    rewrite <- str_app_assoc.
    now rewrite !encode_utf8_app, <- app_assoc. }
  intros id; subst id. split.
  - rewrite identifier_triplet. unfold SHA256.hexdigest.
    do 4 f_equal.
    change ("name=" ++ name ++ "data=" ++ content)
      with ("name=" ++ (name ++ ("data=" ++ content))).
    rewrite (E "type=" (PyStr.lower rtype) "name=" name).
    rewrite encode_utf8_app. reflexivity.
  - apply substring_length.
    change (SHA256.hex (SHA256.digest ?m)) with (SHA256.hexdigest m).
    rewrite hexdigest_length. lia.
Qed.

Lemma identifier_ok_triplet (rec : record) (i : string) :
  _identifier rec = Ok i -> (3 <= List.length rec)%nat.
Proof.
  destruct rec as [|a [|b [|c rest]]]; cbn; try discriminate.
  intros _. lia.
Qed.

Lemma identifier_length (rec : record) (i : string) :
  _identifier rec = Ok i -> String.length i = 7%nat.
Proof.
  destruct rec as [|a [|b [|c rest]]]; try discriminate.
  unfold _identifier; cbn [getitem nth_error rbind]. intros Hi.
  match type of Hi with Ok ?d = _ => assert (Ei : i = d) by congruence end.
  rewrite Ei. apply substring_length. rewrite hexdigest_length. lia.
Qed.

Lemma identifier_raises (rec : record) (e : exn) :
  _identifier rec = Raise e -> e = IndexError /\ (List.length rec < 3)%nat.
Proof.
  destruct rec as [|a [|b [|c rest]]]; cbn; try discriminate;
    intros [= <-]; split; auto; lia.
Qed.

(** ** Finding a record *)

Lemma check_none (test : string -> result bool) : check None test = Ok false.
Proof. reflexivity. Qed.

Lemma check_some (a : string) (test : string -> result bool) :
  a <> "" -> check (Some a) test = test a.
Proof. destruct a; [congruence | reflexivity]. Qed.

Lemma check_empty (test : string -> result bool) :
  check (Some "") test = Ok false.
Proof. reflexivity. Qed.

(** With nothing but an identifier in the filter, the head of a list
    is returned whether or not its identifier is the one asked for. *)
Lemma find_from_identifier_only (index : Z) (rec : record)
      (rest : list record) (id i : string) :
  _identifier rec = Ok i ->
  find_from index (rec :: rest) (Some id) None None None = Ok index.
Proof.
  intros Hi. cbn [find_from]. rewrite !check_none.
  destruct id as [|c id'].
  - rewrite check_empty. reflexivity.
  - rewrite check_some by discriminate. rewrite Hi. cbn [rbind].
    destruct (String.eqb i (String c id')); reflexivity.
Qed.

(** C1, as amended.  With a filter that holds only an identifier which
    no record has, the search returns -1 exactly on the empty sequence;
    on every other sequence it returns 0, the first record, which the
    absent fields match. *)
Theorem find_identifier_only (recs : list record) (id : string) :
  Forall (fun rec => exists i, _identifier rec = Ok i /\ i <> id) recs ->
  _find_resource_record_set recs (Some id) None None None
  = Ok (match recs with [] => -1 | _ :: _ => 0 end).
Proof.
  intros H. destruct recs as [|rec rest]; [reflexivity|].
  inversion H as [|? ? [i [Hi _]] _]; subst.
  unfold _find_resource_record_set.
  now apply find_from_identifier_only with (i := i).
Qed.

Lemma find_identifier_only_witness :
  Forall (fun rec => exists i, _identifier rec = Ok i /\ i <> "0000000")
         [["a"; "www"; "1.2.3.4"]; ["cname"; "foo"; "example.com."]]
  /\ _find_resource_record_set
       [["a"; "www"; "1.2.3.4"]; ["cname"; "foo"; "example.com."]]
       (Some "0000000") None None None = Ok 0.
Proof.
  assert (H : Forall (fun rec => exists i, _identifier rec = Ok i
                                           /\ i <> "0000000")
                     [["a"; "www"; "1.2.3.4"];
                      ["cname"; "foo"; "example.com."]]).
  { repeat constructor; eexists; (split; [vm_compute; reflexivity|]);
      discriminate. }
  split; [exact H|].
  exact (find_identifier_only _ _ H).
Defined.

(** C1 as it is written fails: the one record of this zone has the
    identifier 9facceb, the filter asks for 0000000 and nothing else,
    and the search answers 0 instead of -1. *)
Lemma find_identifier_only_falls_back :
  _identifier ["a"; "www"; "1.2.3.4"] = Ok "9facceb"
  /\ _find_resource_record_set [["a"; "www"; "1.2.3.4"]]
       (Some "0000000") None None None = Ok 0.
Proof. split; vm_compute; reflexivity. Qed.

(** ** The zone text codec *)

Lemma re_split_from_length (s : string) :
  forall (maxsplit : nat) (in_match : bool) (piece : string),
    (1 <= List.length (PyStr.re_split_from maxsplit in_match piece s)
     <= S maxsplit)%nat.
Proof.
  induction s as [|c s IH]; intros m b p; cbn [PyStr.re_split_from].
  - simpl; lia.
  - destruct (b && PyStr.isspace c); [apply IH|].
    destruct m as [|m]; [simpl; lia|].
    destruct (PyStr.isspace c).
    + specialize (IH m true ""). simpl; lia.
    + apply IH.
Qed.

Lemma short_tuple_identifier (rec : record) :
  (List.length rec < 3)%nat <-> _identifier rec = Raise IndexError.
Proof.
  destruct rec as [|a [|b [|c rest]]]; cbn; split; intros H;
    try reflexivity; try discriminate; try lia.
Qed.

(** C3, as amended.  Reading the zone never fails and changes nothing:
    every line yields the tuple of its one to three fields, also a
    line with fewer than three.  Such a tuple is what fails later, with
    an index error, when its identifier is asked for. *)
Theorem parse_never_fails (w : world) :
  _get_resource_record_sets w
  = (Ok (map (fun line => PyStr.re_split_space line 2)
             (PyStr.splitlines (zone w))), w)
  /\ Forall (fun rec => (1 <= List.length rec <= 3)%nat
                        /\ ((List.length rec < 3)%nat
                            <-> _identifier rec = Raise IndexError))
            (parse_records (zone w)).
Proof.
  split; [reflexivity|].
  unfold parse_records. apply Forall_map, Forall_forall. intros line _.
  split; [apply re_split_from_length | apply short_tuple_identifier].
Qed.

(** C3 as it is written fails: the line [a www] has two fields, and
    reading the zone returns the two-field tuple instead of failing. *)
Lemma short_line_is_parsed :
  PyStr.splitlines "a www" = ["a www"]
  /\ PyStr.re_split_space "a www" 2 = ["a"; "www"]
  /\ _get_resource_record_sets (mkWorld "a www" [])
     = (Ok [["a"; "www"]], mkWorld "a www" []).
Proof. repeat split. Qed.

(** *** Round trip *)

Lemma linebreak_is_space (c : ascii) :
  PyStr.islinebreak c = true -> PyStr.isspace c = true.
Proof.
  unfold PyStr.islinebreak, PyStr.isspace. generalize (PyStr.ord c). intros n.
  rewrite !orb_true_iff, !andb_true_iff, !Z.leb_le, !Z.eqb_eq. lia.
Qed.

Lemma no_space_no_linebreak (s : string) :
  no_space s = true -> no_linebreak s = true.
Proof.
  unfold no_space, no_linebreak.
  induction s as [|c s IH]; simpl; [reflexivity|].
  rewrite !andb_true_iff, !negb_true_iff. intros [Hc Hs]. split; auto.
  destruct (PyStr.islinebreak c) eqn:E; [|reflexivity].
  apply linebreak_is_space in E. congruence.
Qed.

Lemma no_linebreak_app (a b : string) :
  no_linebreak (a ++ b) = no_linebreak a && no_linebreak b.
Proof.
  unfold no_linebreak. induction a as [|c a IH]; simpl; [reflexivity|].
  now rewrite IH, andb_assoc.
Qed.

Lemma splitlines_from_line (l : string) :
  forall (line rest : string),
    no_linebreak l = true ->
    PyStr.splitlines_from line (l ++ rest)
    = PyStr.splitlines_from (line ++ l) rest.
Proof.
  induction l as [|c l IH]; intros line rest H.
  - simpl. now rewrite str_app_nil_r.
  - unfold no_linebreak in H. simpl in H.
    apply andb_true_iff in H as [Hc Hl]. apply negb_true_iff in Hc.
    simpl. rewrite Hc. rewrite IH by exact Hl.
    now rewrite str_app_assoc.
Qed.

Lemma splitlines_from_LF (line rest : string) :
  PyStr.splitlines_from line (LF ++ rest)
  = line :: PyStr.splitlines_from "" rest.
Proof. destruct rest; reflexivity. Qed.

Lemma splitlines_join (lines : list string) :
  Forall (fun l => nonempty l = true /\ no_linebreak l = true) lines ->
  PyStr.splitlines (PyStr.join LF lines) = lines.
Proof.
  unfold PyStr.splitlines, PyStr.join.
  induction lines as [|l ls IH]; intros H; [reflexivity|].
  inversion H as [|? ? [Hne Hnl] Hls]; subst.
  destruct ls as [|l' ls].
  - cbn [concat]. rewrite <- (str_app_nil_r l) at 1.
    rewrite splitlines_from_line by exact Hnl. simpl.
    destruct l; [discriminate | reflexivity].
  - change (concat LF (l :: l' :: ls))
      with (l ++ LF ++ concat LF (l' :: ls)).
    rewrite splitlines_from_line by exact Hnl.
    rewrite splitlines_from_LF. simpl (_ ++ _). f_equal.
    apply IH, Hls.
Qed.

Lemma re_split_field (t : string) :
  forall (m : nat) (piece : string) (sp : ascii) (rest : string),
    no_space t = true -> PyStr.isspace sp = true ->
    PyStr.re_split_from (S m) false piece (t ++ String sp rest)
    = (piece ++ t) :: PyStr.re_split_from m true "" rest.
Proof.
  induction t as [|c t IH]; intros m piece sp rest Ht Hsp.
  - simpl. rewrite Hsp. now rewrite str_app_nil_r.
  - unfold no_space in Ht. simpl in Ht.
    apply andb_true_iff in Ht as [Hc Ht]. apply negb_true_iff in Hc.
    simpl. rewrite Hc. rewrite IH by assumption.
    now rewrite str_app_assoc.
Qed.

Lemma re_split_leave_match (m : nat) (c : ascii) (s : string) :
  PyStr.isspace c = false ->
  PyStr.re_split_from m true "" (String c s)
  = PyStr.re_split_from m false "" (String c s).
Proof. intros H. simpl. now rewrite H. Qed.

Lemma space_is_space : PyStr.isspace " " = true.
Proof. reflexivity. Qed.

Lemma re_split_triplet (rec : record) :
  well_formed rec = true ->
  PyStr.re_split_space (PyStr.join " " rec) 2 = rec.
Proof.
  destruct rec as [|t [|n [|c [|x rest]]]]; try discriminate.
  unfold well_formed. rewrite !andb_true_iff, !negb_true_iff.
  intros [[[[[[[Ht Hn] Hc] Hst] Hsn] Hcs] _] _].
  unfold PyStr.re_split_space, PyStr.join.
  change (concat " " [t; n; c]) with (t ++ String " " (n ++ String " " c)).
  rewrite re_split_field by (assumption || exact space_is_space).
  simpl ("" ++ t). f_equal.
  destruct n as [|a n]; [discriminate|].
  assert (Ha : PyStr.isspace a = false).
  { unfold no_space in Hsn. simpl in Hsn.
    apply andb_true_iff in Hsn as [Ha _]. now apply negb_true_iff in Ha. }
  change (String a n ++ String " " c) with (String a (n ++ String " " c)).
  rewrite re_split_leave_match by exact Ha.
  change (String a (n ++ String " " c)) with (String a n ++ String " " c).
  rewrite re_split_field by (assumption || exact space_is_space).
  simpl ("" ++ _). f_equal.
  destruct c as [|b c]; [discriminate|].
  simpl in Hcs. simpl. rewrite Hcs. reflexivity.
Qed.

Lemma well_formed_line (rec : record) :
  well_formed rec = true ->
  nonempty (PyStr.join " " rec) = true
  /\ no_linebreak (PyStr.join " " rec) = true.
Proof.
  destruct rec as [|t [|n [|c [|x rest]]]]; try discriminate.
  unfold well_formed. rewrite !andb_true_iff, !negb_true_iff.
  intros [[[[[[[Ht Hn] Hc] Hst] Hsn] _] _] Hlc].
  unfold PyStr.join.
  change (concat " " [t; n; c]) with (t ++ " " ++ n ++ " " ++ c).
  split.
  - destruct t; [discriminate | reflexivity].
  - rewrite !no_linebreak_app.
    rewrite (no_space_no_linebreak t Hst), (no_space_no_linebreak n Hsn), Hlc.
    reflexivity.
Qed.

Lemma parse_record_txt (recs : list record) :
  forallb well_formed recs = true ->
  parse_records (record_txt recs) = recs.
Proof.
  intros H. rewrite forallb_forall in H.
  unfold parse_records, record_txt.
  rewrite splitlines_join.
  - rewrite map_map. rewrite <- (map_id recs) at 2.
    apply map_ext_in. intros rec Hin. apply re_split_triplet, H, Hin.
  - apply Forall_map, Forall_forall. intros rec Hin.
    apply well_formed_line, H, Hin.
Qed.

(** C4.  Parsing the text written for a sequence of well-formed
    triplets gives the sequence back. *)
Theorem parse_serialize_roundtrip (recs : list record) :
  forallb well_formed recs = true ->
  parse_records (record_txt recs) = recs.
Proof. exact (parse_record_txt recs). Qed.

Lemma parse_serialize_roundtrip_witness :
  forallb well_formed
          [["a"; "www"; "1.2.3.4"]; ["txt"; "@"; "v=spf1 mx  -all"];
           ["cname"; "foo"; "example.com."]] = true
  /\ parse_records
       (record_txt [["a"; "www"; "1.2.3.4"]; ["txt"; "@"; "v=spf1 mx  -all"];
                    ["cname"; "foo"; "example.com."]])
     = [["a"; "www"; "1.2.3.4"]; ["txt"; "@"; "v=spf1 mx  -all"];
        ["cname"; "foo"; "example.com."]].
Proof.
  split; [reflexivity|].
  apply (parse_serialize_roundtrip
           [["a"; "www"; "1.2.3.4"]; ["txt"; "@"; "v=spf1 mx  -all"];
            ["cname"; "foo"; "example.com."]]).
  reflexivity.
Defined.

(** ** Lists *)

Lemma setitem_nat_replace {A} (l : list A) :
  forall (n : nat) (x : A),
    (n < List.length l)%nat ->
    setitem_nat l n x = Ok (firstn n l ++ x :: skipn (S n) l)%list.
Proof.
  induction l as [|y l IH]; intros n x H; simpl in H; [lia|].
  destruct n as [|n]; [reflexivity|].
  cbn [setitem_nat]. rewrite IH by lia. reflexivity.
Qed.

Lemma setitem_replace (recs : list record) (n : nat) (rec : record) :
  (n < List.length recs)%nat ->
  setitem recs (Z.of_nat n) rec = Ok (replace_at n rec recs).
Proof.
  intros H. unfold setitem.
  destruct (Z.of_nat n <? 0) eqn:E; [apply Z.ltb_lt in E; lia|].
  rewrite E, Nat2Z.id. now apply setitem_nat_replace.
Qed.

Lemma replace_at_length (n : nat) (rec : record) (recs : list record) :
  (n < List.length recs)%nat ->
  List.length (replace_at n rec recs) = List.length recs.
Proof.
  intros H. unfold replace_at.
  rewrite length_app, length_firstn. cbn [List.length].
  rewrite length_skipn. lia.
Qed.

Lemma replace_at_same (n : nat) (rec : record) (recs : list record) :
  (n < List.length recs)%nat ->
  nth_error (replace_at n rec recs) n = Some rec.
Proof.
  intros H. unfold replace_at.
  rewrite nth_error_app2; rewrite length_firstn; [|lia].
  replace (n - Nat.min n (List.length recs))%nat with O by lia.
  reflexivity.
Qed.

Lemma replace_at_other (n j : nat) (rec : record) (recs : list record) :
  (n < List.length recs)%nat -> j <> n ->
  nth_error (replace_at n rec recs) j = nth_error recs j.
Proof.
  intros H Hj. unfold replace_at.
  destruct (Nat.lt_ge_cases j n) as [Hlt | Hge].
  - rewrite nth_error_app1 by (rewrite length_firstn; lia).
    rewrite nth_error_firstn.
    destruct (Nat.ltb_spec j n); [reflexivity | lia].
  - rewrite nth_error_app2 by (rewrite length_firstn; lia).
    rewrite length_firstn.
    replace (j - Nat.min n (List.length recs))%nat with (S (j - S n)) by lia.
    cbn [nth_error]. rewrite nth_error_skipn. f_equal. lia.
Qed.

(** ** What the search can answer *)

Lemma getitem_raises (rec : record) (k : nat) (e : exn) :
  getitem rec k = Raise e -> e = IndexError.
Proof. unfold getitem. destruct (nth_error rec k); congruence. Qed.

Ltac step_check H :=
  match type of H with
  | context [check ?arg ?test] =>
      let b := fresh "b" in
      let e := fresh "e" in
      let E := fresh "E" in
      destruct (check arg test) as [b | e] eqn:E; cbn [rbind] in H;
      [destruct b | ]
  end.

Lemma check_raises (arg : option string) (test : string -> result bool)
      (e : exn) :
  (forall a e', test a = Raise e' -> e' = IndexError) ->
  check arg test = Raise e -> e = IndexError.
Proof.
  unfold check. destruct (given arg); [|discriminate]. intros H. apply H.
Qed.

Lemma field_test_raises (rec : record) (k : nat) (f : string -> bool)
      (e : exn) :
  (let* x := getitem rec k in Ok (f x)) = Raise e -> e = IndexError.
Proof.
  destruct (getitem rec k) eqn:E; cbn; [discriminate|].
  intros [= <-]. eapply getitem_raises, E.
Qed.

Lemma id_test_raises (rec : record) (f : string -> bool) (e : exn) :
  (let* x := _identifier rec in Ok (f x)) = Raise e -> e = IndexError.
Proof.
  destruct (_identifier rec) eqn:E; cbn; [discriminate|].
  intros [= <-]. eapply identifier_raises, E.
Qed.

Ltac raised_by_check :=
  match goal with
  | E : check _ _ = Raise ?e |- ?e = IndexError =>
      eapply check_raises; [| exact E]; cbv beta; intros;
      match goal with
      | T : rbind (getitem ?r ?k) (fun x => Ok (@?f x)) = Raise _ |- _ =>
          exact (field_test_raises r k f _ T)
      | T : rbind (_identifier ?r) (fun x => Ok (@?f x)) = Raise _ |- _ =>
          exact (id_test_raises r f _ T)
      end
  end.

Lemma find_from_raises (recs : list record) :
  forall (index : Z) (identifier rtype name content : option string)
         (e : exn),
    find_from index recs identifier rtype name content = Raise e ->
    e = IndexError.
Proof.
  induction recs as [|rec rest IH]; intros index a b c d e H;
    [discriminate|].
  cbn [find_from] in H.
  step_check H; [discriminate | | injection H as <-; raised_by_check].
  step_check H; [eauto | | injection H as <-; raised_by_check].
  step_check H; [eauto | | injection H as <-; raised_by_check].
  step_check H; [eauto | discriminate | injection H as <-; raised_by_check].
Qed.

Lemma find_from_range (recs : list record) :
  forall (index : Z) (identifier rtype name content : option string)
         (k : Z),
    0 <= index ->
    find_from index recs identifier rtype name content = Ok k ->
    k = -1 \/ index <= k < index + Z.of_nat (List.length recs).
Proof.
  induction recs as [|rec rest IH]; intros index a b c d k Hi H.
  - left. cbn in H. congruence.
  - assert (Hrest : forall k', find_from (index + 1) rest a b c d = Ok k' ->
                               k' = -1 \/ index <= k'
                                          < index + Z.of_nat (List.length (rec :: rest))).
    { intros k' Hk. apply IH in Hk; [|lia]. cbn [List.length]. lia. }
    assert (Hhere : Ok index = Ok k ->
                    k = -1 \/ index <= k
                                < index + Z.of_nat (List.length (rec :: rest))).
    { intros [= <-]. cbn [List.length]. lia. }
    cbn [find_from] in H.
    step_check H; [auto | | discriminate].
    step_check H; [auto | | discriminate].
    step_check H; [auto | | discriminate].
    step_check H; [auto | auto | discriminate].
Qed.

(** ** Removing records *)

Lemma record_eqb_eq (r1 r2 : record) : record_eqb r1 r2 = true <-> r1 = r2.
Proof.
  revert r2. induction r1 as [|f1 r1 IH]; intros [|f2 r2]; cbn;
    try (split; [discriminate | congruence]); [tauto|].
  rewrite andb_true_iff, String.eqb_eq, IH. split.
  - intros [-> ->]. reflexivity.
  - intros [= -> ->]. auto.
Qed.

Lemma record_eqb_refl (rec : record) : record_eqb rec rec = true.
Proof. now apply record_eqb_eq. Qed.

Lemma remove_each_skip (fs : list record) :
  forall (x : record) (l : list record),
    Forall (fun f => record_eqb x f = false) fs ->
    remove_each fs (x :: l)
    = let* r := remove_each fs l in Ok (x :: r).
Proof.
  induction fs as [|f fs IH]; intros x l H; [reflexivity|].
  inversion H as [|? ? Hf Hfs]; subst.
  cbn [remove_each list_remove]. rewrite Hf.
  destruct (list_remove l f) as [r|e]; cbn [rbind]; [|reflexivity].
  now apply IH.
Qed.

(** Removing, one by one, the records that a test selects leaves the
    records that the test rejects: every copy of a selected record is
    selected too. *)
Lemma remove_each_filter (p : record -> bool) (l : list record) :
  remove_each (filter p l) l = Ok (filter (fun rec => negb (p rec)) l).
Proof.
  induction l as [|x l IH]; [reflexivity|].
  cbn [filter]. destruct (p x) eqn:Px; cbn [negb].
  - cbn [remove_each list_remove]. rewrite record_eqb_refl. cbn [rbind].
    exact IH.
  - rewrite remove_each_skip.
    + rewrite IH. reflexivity.
    + apply Forall_forall. intros f Hf. apply filter_In in Hf as [_ Pf].
      destruct (record_eqb x f) eqn:E; [|reflexivity].
      apply record_eqb_eq in E. congruence.
Qed.

Lemma delete_selects_raises (identifier rtype name content : option string)
      (rec : record) (e : exn) :
  delete_selects identifier rtype name content rec = Raise e ->
  e = IndexError /\ ~ is_triplet rec.
Proof.
  intros H. split.
  - unfold delete_selects in H.
    step_check H; [discriminate | | injection H as <-; raised_by_check].
    step_check H; [discriminate | | injection H as <-; raised_by_check].
    step_check H; [discriminate | | injection H as <-; raised_by_check].
    step_check H; [discriminate | discriminate
                   | injection H as <-; raised_by_check].
  - intros T. destruct rec as [|a [|b [|c [|x rest]]]]; try discriminate.
    unfold delete_selects, check in H. rewrite identifier_triplet in H.
    cbn [getitem nth_error rbind] in H.
    repeat match type of H with
           | context [match given ?a with _ => _ end] =>
               destruct (given a); cbn [rbind] in H
           | context [if negb ?b then _ else _] =>
               destruct b; cbn [negb] in H
           end; discriminate.
Qed.

Lemma filtered_records_filter (recs : list record)
      (identifier rtype name content : option string) :
  match filtered_records recs identifier rtype name content with
  | Ok fs => fs = filter (selected identifier rtype name content) recs
  | Raise e => e = IndexError /\ ~ Forall is_triplet recs
  end.
Proof.
  induction recs as [|rec rest IH]; [reflexivity|].
  cbn [filtered_records filter]. unfold selected at 1.
  destruct (delete_selects identifier rtype name content rec)
    as [keep|e] eqn:D; cbn [rbind].
  - destruct (filtered_records rest identifier rtype name content)
      as [more|e]; cbn [rbind].
    + destruct keep; congruence.
    + destruct IH as [-> IH]. split; [reflexivity|].
      intros F. apply IH. now inversion F.
  - apply delete_selects_raises in D as [-> D]. split; [reflexivity|].
    intros F. apply D. now inversion F.
Qed.

Lemma find_from_total (recs : list record) :
  Forall is_triplet recs ->
  forall (index : Z) (identifier rtype name content : option string),
  exists k, find_from index recs identifier rtype name content = Ok k.
Proof.
  induction 1 as [|rec rest T _ IH]; intros index a b c d;
    [eexists; reflexivity|].
  destruct rec as [|x [|y [|z [|u more]]]]; try discriminate.
  cbn [find_from]. unfold check. rewrite identifier_triplet.
  cbn [getitem nth_error rbind].
  repeat match goal with
         | |- context [match given ?a with _ => _ end] =>
             destruct (given a); cbn [rbind]
         | |- context [if negb ?b then _ else _] =>
             destruct b; cbn [negb]
         | |- context [if String.eqb ?u ?v then _ else _] =>
             destruct (String.eqb u v)
         end;
    solve [eexists; reflexivity | apply IH].
Qed.



Lemma given_some (s : string) : s <> "" -> given (Some s) = Some s.
Proof. destruct s; [congruence | reflexivity]. Qed.

Lemma provided_some (s : string) : provided (Some s) = nonempty s.
Proof. destruct s; reflexivity. Qed.

Lemma setitem_raises (recs : list record) (index : Z) (rec : record)
      (e : exn) :
  setitem recs index rec = Raise e -> e = IndexError.
Proof.
  unfold setitem.
  destruct (_ <? 0); [congruence|].
  generalize (Z.to_nat (if index <? 0
                        then index + Z.of_nat (List.length recs) else index)).
  induction recs as [|y l IH]; intros n; cbn [setitem_nat]; [congruence|].
  destruct n as [|n]; [discriminate|].
  destruct (setitem_nat l n rec) eqn:E; cbn; [discriminate|].
  intros [= <-]. eapply IH, E.
Qed.

Lemma find_from_type_name (recs : list record) :
  forall (index : Z) (identifier : option string) (rtype name : string),
    given identifier = None -> rtype <> "" -> name <> "" ->
    Forall (fun rec => (2 <= List.length rec)%nat) recs ->
    find_from index recs identifier (Some rtype) (Some name) None
    = Ok (match first_type_name rtype name recs with
          | Some j => index + Z.of_nat j
          | None => -1
          end).
Proof.
  induction recs as [|rec rest IH]; intros index identifier rtype name
                                           Hid Ht Hn Hlen; [reflexivity|].
  inversion Hlen as [|? ? Hrec Hrest]; subst.
  destruct rec as [|a [|b fields]]; simpl in Hrec; try lia.
  cbn [find_from first_type_name nth].
  unfold check at 1. rewrite Hid. cbn [rbind].
  rewrite !check_some by assumption. rewrite check_none.
  cbn [getitem nth_error rbind].
  specialize (IH (index + 1) identifier rtype name Hid Ht Hn Hrest).
  assert (Hnext : find_from (index + 1) rest identifier (Some rtype)
                            (Some name) None
                  = Ok match option_map S (first_type_name rtype name rest) with
                       | Some j => index + Z.of_nat j
                       | None => -1
                       end).
  { rewrite IH. destruct (first_type_name rtype name rest); cbn [option_map];
      f_equal; lia. }
  destruct (String.eqb (PyStr.lower a) (PyStr.lower rtype));
    cbn [negb andb]; [|exact Hnext].
  destruct (String.eqb b name); cbn [negb]; [|exact Hnext].
  f_equal. simpl. lia.
Qed.

Lemma first_type_name_bound (rtype name : string) (recs : list record)
      (j : nat) :
  first_type_name rtype name recs = Some j -> (j < List.length recs)%nat.
Proof.
  revert j. induction recs as [|rec rest IH]; intros j; cbn; [discriminate|].
  destruct (_ && _); [intros [= <-]; lia|].
  destruct (first_type_name rtype name rest) as [k|]; cbn; [|discriminate].
  intros [= <-]. specialize (IH k eq_refl). lia.
Qed.

Lemma first_type_name_ignores_content (rtype name : string)
      (recs recs' : list record) :
  map (firstn 2) recs' = map (firstn 2) recs ->
  first_type_name rtype name recs' = first_type_name rtype name recs.
Proof.
  revert recs'. induction recs as [|rec rest IH]; intros [|rec' rest'] H;
    try discriminate; [reflexivity|].
  cbn [map] in H. injection H as Hhead Htail.
  cbn [first_type_name]. rewrite (IH _ Htail).
  assert (E0 : nth 0 rec' "" = nth 0 rec "")
    by (destruct rec' as [|? [|? ?]], rec as [|? [|? ?]];
        cbn in *; congruence).
  assert (E1 : nth 1 rec' "" = nth 1 rec "")
    by (destruct rec' as [|? [|? ?]], rec as [|? [|? ?]];
        cbn in *; congruence).
  now rewrite E0, E1.
Qed.

Lemma find_from_identifier_hit (recs : list record) :
  forall (index : Z) (i : nat) (T : record) (id rtype name : string),
    nth_error recs i = Some T -> _identifier T = Ok id ->
    rtype <> "" -> name <> "" ->
    (forall j rec, (j < i)%nat -> nth_error recs j = Some rec ->
                   (exists idj, _identifier rec = Ok idj /\ idj <> id)
                   /\ ~ (PyStr.lower (nth 0 rec "") = PyStr.lower rtype
                         /\ nth 1 rec "" = name)) ->
    find_from index recs (Some id) (Some rtype) (Some name) None
    = Ok (index + Z.of_nat i).
Proof.
  induction recs as [|rec rest IH]; intros index i T id rtype name
                                           HT Hid Ht Hn Hbefore.
  - destruct i; discriminate.
  - assert (Hne : id <> "").
    { apply identifier_length in Hid. intros ->. discriminate. }
    cbn [find_from]. rewrite !check_some by assumption. rewrite check_none.
    destruct i as [|i].
    + cbn in HT. injection HT as ->. rewrite Hid. cbn [rbind].
      rewrite String.eqb_refl. f_equal. simpl. lia.
    + destruct (Hbefore O rec) as [[idj [Hj Hneq]] Hno]; [lia | reflexivity |].
      rewrite Hj. cbn [rbind].
      apply String.eqb_neq in Hneq. rewrite Hneq.
      pose proof (identifier_ok_triplet _ _ Hj) as Hlen.
      destruct rec as [|a [|b [|c fields]]]; simpl in Hlen; try lia.
      cbn [getitem nth_error rbind]. cbn [nth] in Hno.
      assert (Hnext : find_from (index + 1) rest (Some id) (Some rtype)
                                (Some name) None
                      = Ok (index + Z.of_nat (S i))).
      { rewrite (IH (index + 1) i T id rtype name); auto.
        - f_equal. lia.
        - intros j r Hlt Hr. apply (Hbefore (S j) r); [lia | exact Hr]. }
      destruct (String.eqb_spec (PyStr.lower a) (PyStr.lower rtype));
        cbn [negb]; [|exact Hnext].
      destruct (String.eqb_spec b name); cbn [negb]; [|exact Hnext].
      exfalso. apply Hno. split; assumption.
Qed.

(** ** The operations on the zone *)

Section Operations.

Variable nameserver : string.
Variable ttl_option : option Z.
Variable base_relative_name : string -> string.

Local Notation relative_name := (_relative_name base_relative_name).
Local Notation create_record :=
  (_create_record nameserver ttl_option base_relative_name).
Local Notation update_record :=
  (_update_record nameserver ttl_option base_relative_name).
Local Notation delete_record :=
  (_delete_record nameserver ttl_option base_relative_name).
Local Notation store := (stored nameserver ttl_option).

Lemma relative_name_nonempty (name : string) : relative_name name <> "".
Proof.
  unfold _relative_name. destruct (base_relative_name name); discriminate.
Qed.

(** [_update_record] with its three arguments present, step by step. *)
Lemma update_record_run (identifier : option string)
      (rtype name content : string) (w : world) :
  rtype <> "" -> name <> "" -> content <> "" ->
  let recs := parse_records (zone w) in
  let rec := [PyStr.lower rtype; relative_name name;
              _bind_format_target (Some rtype) content] in
  update_record identifier (Some rtype) (Some name) (Some content) w
  = match _find_resource_record_set recs identifier (Some rtype)
            (Some (relative_name name)) None with
    | Raise e => (Raise e, w)
    | Ok index =>
        if index >=? 0
        then match setitem recs index rec with
             | Ok recs' => (Ok true, store w recs')
             | Raise e => (Raise e, w)
             end
        else (Ok true, store w (recs ++ [rec])%list)
    end.
Proof.
  intros Ht Hn Hc recs rec. unfold _update_record.
  rewrite !given_some by assumption.
  unfold bind, lift, ret, _get_resource_record_sets, _get_records, bind, ret.
  fold recs.
  destruct (_find_resource_record_set recs identifier (Some rtype)
              (Some (relative_name name)) None) as [index|e];
    [|reflexivity].
  destruct (index >=? 0); [|reflexivity].
  fold rec. destruct (setitem recs index rec); reflexivity.
Qed.

(** C8.  [_update_record] raises its argument error exactly when the
    type, the name and the content are not all present and non-empty;
    it does so before any request, leaving the world as it was.  With
    all three present no exception of that class is raised. *)
Theorem update_record_invalid_arguments
        (identifier rtype name content : option string) (w : world) :
  if provided rtype && provided name && provided content
  then forall msg,
      fst (update_record identifier rtype name content w)
      <> Raise (Exception msg)
  else update_record identifier rtype name content w
       = (Raise invalid_arguments, w).
Proof.
  destruct rtype as [[|ct rtype]|]; try reflexivity;
    destruct name as [[|cn name]|]; try reflexivity;
    destruct content as [[|cc content]|]; try reflexivity.
  cbn [provided given andb]. intros msg.
  rewrite update_record_run by discriminate.
  destruct (_find_resource_record_set _ _ _ _ _) as [index|e] eqn:F.
  - destruct (index >=? 0); [|discriminate].
    destruct (setitem _ _ _) as [recs'|e] eqn:S; [discriminate|].
    apply setitem_raises in S. subst e. discriminate.
  - apply find_from_raises in F. subst e. discriminate.
Qed.

(** C10.  Without an identifier, [_update_record] locates the record
    by type (up to case) and relative name alone: the first such
    record is replaced whatever its content, a record is appended
    when there is none, and the content argument only shows in the
    record that is written. *)
Theorem update_without_identifier
        (identifier : option string) (rtype name content : string)
        (w : world) :
  given identifier = None ->
  rtype <> "" -> name <> "" -> content <> "" ->
  Forall (fun rec => (2 <= List.length rec)%nat) (parse_records (zone w)) ->
  let recs := parse_records (zone w) in
  let rec := [PyStr.lower rtype; relative_name name;
              _bind_format_target (Some rtype) content] in
  update_record identifier (Some rtype) (Some name) (Some content) w
  = (Ok true,
     store w match first_type_name rtype (relative_name name) recs with
             | Some j => replace_at j rec recs
             | None => (recs ++ [rec])%list
             end)
  /\ (forall recs',
         map (firstn 2) recs' = map (firstn 2) recs ->
         first_type_name rtype (relative_name name) recs'
         = first_type_name rtype (relative_name name) recs).
Proof.
  intros Hid Ht Hn Hc Hlen recs rec. split.
  - rewrite update_record_run by assumption. fold recs rec.
    unfold _find_resource_record_set.
    rewrite find_from_type_name;
      [| assumption | assumption | apply relative_name_nonempty
       | exact Hlen].
    destruct (first_type_name rtype (relative_name name) recs) as [j|] eqn:F.
    + apply first_type_name_bound in F.
      replace (0 + Z.of_nat j >=? 0) with true
        by (symmetry; apply Z.geb_le; lia).
      rewrite Z.add_0_l, setitem_replace by exact F. reflexivity.
    + reflexivity.
  - apply first_type_name_ignores_content.
Qed.

(** C5, as amended.  When position [i] is the first whose record has
    the identifier [id], and no earlier record has the type (up to
    case) and the relative name of the arguments, [_update_record]
    with that identifier writes the zone with the new record at
    position [i]: same length, every other position as before. *)
Theorem update_by_identifier
        (id rtype name content : string) (w : world) (i : nat)
        (T : record) :
  rtype <> "" -> name <> "" -> content <> "" ->
  let recs := parse_records (zone w) in
  let rec := [PyStr.lower rtype; relative_name name;
              _bind_format_target (Some rtype) content] in
  nth_error recs i = Some T ->
  _identifier T = Ok id ->
  (forall j r, (j < i)%nat -> nth_error recs j = Some r ->
               (exists idj, _identifier r = Ok idj /\ idj <> id)
               /\ ~ (PyStr.lower (nth 0 r "") = PyStr.lower rtype
                     /\ nth 1 r "" = relative_name name)) ->
  update_record (Some id) (Some rtype) (Some name) (Some content) w
  = (Ok true, store w (replace_at i rec recs))
  /\ List.length (replace_at i rec recs) = List.length recs
  /\ nth_error (replace_at i rec recs) i = Some rec
  /\ (forall j, j <> i ->
                nth_error (replace_at i rec recs) j = nth_error recs j).
Proof.
  intros Ht Hn Hc recs rec HT Hid Hbefore.
  assert (Hi : (i < List.length recs)%nat)
    by (apply nth_error_Some; congruence).
  split; [|split; [|split]].
  - rewrite update_record_run by assumption. fold recs rec.
    unfold _find_resource_record_set.
    rewrite (find_from_identifier_hit recs 0 i T id rtype
                                      (relative_name name));
      [| assumption | assumption | assumption
       | apply relative_name_nonempty | exact Hbefore].
    replace (0 + Z.of_nat i >=? 0) with true
      by (symmetry; apply Z.geb_le; lia).
    rewrite Z.add_0_l, setitem_replace by exact Hi. reflexivity.
  - now apply replace_at_length.
  - now apply replace_at_same.
  - intros j Hj. now apply replace_at_other.
Qed.

Lemma create_record_run (rtype name content : string) (w : world) :
  let recs := parse_records (zone w) in
  let rec := [PyStr.lower rtype; relative_name name;
              _bind_format_target (Some rtype) content] in
  create_record rtype name content w
  = match _find_resource_record_set recs None (Some rtype)
            (Some (relative_name name)) (Some content) with
    | Raise e => (Raise e, w)
    | Ok index =>
        if index >=? 0 then (Ok true, w)
        else (Ok true, store w (recs ++ [rec])%list)
    end.
Proof.
  intros recs rec. unfold _create_record.
  unfold bind, lift, ret, _get_resource_record_sets, _get_records, bind, ret.
  fold recs.
  destruct (_find_resource_record_set recs None (Some rtype)
              (Some (relative_name name)) (Some content)) as [index|e];
    [|reflexivity].
  destruct (index >=? 0); reflexivity.
Qed.

Lemma delete_record_run (identifier rtype name content : option string)
      (w : world) :
  let recs := parse_records (zone w) in
  delete_record identifier rtype name content w
  = match filtered_records recs identifier rtype
            (option_map relative_name name)
            (option_map (_bind_format_target rtype) content) with
    | Raise e => (Raise e, w)
    | Ok [] => (Ok false, w)
    | Ok filtered =>
        match remove_each filtered recs with
        | Ok recs' => (Ok true, store w recs')
        | Raise e => (Raise e, w)
        end
    end.
Proof.
  intros recs. unfold _delete_record.
  unfold bind, lift, ret, _get_resource_record_sets, _get_records, bind, ret.
  fold recs.
  destruct (filtered_records recs identifier rtype _ _) as [[|f fs]|e];
    reflexivity.
Qed.

(** C7.  [_delete_record] returns true only after removing at least
    one record: the zone is then overwritten with the records that
    the filter rejects, which are fewer.  When the filter selects no
    record it returns false and the world is as before, so nothing
    was stored.  It raises only on a zone with a tuple that is not a
    triplet. *)
Theorem delete_record_result
        (identifier rtype name content : option string) (w : world) :
  let recs := parse_records (zone w) in
  let name' := option_map relative_name name in
  let content' := option_map (_bind_format_target rtype) content in
  let matching := filter (selected identifier rtype name' content') recs in
  let others :=
    filter (fun rec => negb (selected identifier rtype name' content' rec))
           recs in
  match filtered_records recs identifier rtype name' content' with
  | Raise e =>
      delete_record identifier rtype name content w = (Raise e, w)
      /\ e = IndexError /\ ~ Forall is_triplet recs
  | Ok filtered =>
      filtered = matching
      /\ (List.length matching + List.length others
          = List.length recs)%nat
      /\ delete_record identifier rtype name content w
         = match matching with
           | [] => (Ok false, w)
           | _ :: _ => (Ok true, store w others)
           end
  end.
Proof.
  intros recs name' content' matching others.
  pose proof (filtered_records_filter recs identifier rtype name' content')
    as F.
  rewrite delete_record_run. fold recs name' content'.
  destruct (filtered_records recs identifier rtype name' content')
    as [filtered|e].
  - fold matching in F. subst filtered.
    split; [reflexivity|]. split; [apply filter_length|].
    destruct matching as [|f fs] eqn:Em; [reflexivity|].
    rewrite <- Em. unfold matching. rewrite remove_each_filter.
    reflexivity.
  - destruct F as [-> F]. auto.
Qed.

(** The test of [_bind_format_target] is on the exact type [CNAME]. *)
Example bind_format_target_other_case :
  _bind_format_target (Some "cname") "example.com" = "example.com"
  /\ _bind_format_target (Some "CNAME") "example.com." = "example.com."
  /\ _bind_format_target (Some "A") "1.2.3.4" = "1.2.3.4".
Proof. repeat split. Qed.
End Operations.

(** ** The operations on concrete zones

    The name [www] and the like are relative to the zone already, and
    the conversion of the framework leaves them as they are. *)

Lemma update_without_identifier_witness :
  _update_record "valuedomain1" None (fun name => name)
                 None (Some "A") (Some "www") (Some "5.6.7.8")
                 (mkWorld ("txt www hello" ++ LF ++ "a www 1.1.1.1"
                           ++ LF ++ "a www 2.2.2.2") [])
  = (Ok true,
     stored "valuedomain1" None
            (mkWorld ("txt www hello" ++ LF ++ "a www 1.1.1.1"
                      ++ LF ++ "a www 2.2.2.2") [])
            [["txt"; "www"; "hello"]; ["a"; "www"; "5.6.7.8"];
             ["a"; "www"; "2.2.2.2"]]).
Proof.
  refine (proj1 (update_without_identifier
                   "valuedomain1" None (fun name => name)
                   None "A" "www" "5.6.7.8"
                   (mkWorld ("txt www hello" ++ LF ++ "a www 1.1.1.1"
                             ++ LF ++ "a www 2.2.2.2") [])
                   _ _ _ _ _)).
  - reflexivity.
  - discriminate.
  - discriminate.
  - discriminate.
  - vm_compute. repeat constructor.
Defined.

Lemma update_by_identifier_witness :
  _identifier ["txt"; "www"; "hello"] = Ok "28002dd"
  /\ _update_record "valuedomain1" None (fun name => name)
                    (Some "28002dd") (Some "TXT") (Some "www") (Some "bye")
                    (mkWorld ("a www 1.1.1.1" ++ LF ++ "txt www hello"
                              ++ LF ++ "a www 2.2.2.2") [])
     = (Ok true,
        stored "valuedomain1" None
               (mkWorld ("a www 1.1.1.1" ++ LF ++ "txt www hello"
                         ++ LF ++ "a www 2.2.2.2") [])
               [["a"; "www"; "1.1.1.1"]; ["txt"; "www"; "bye"];
                ["a"; "www"; "2.2.2.2"]]).
Proof.
  assert (Hid : _identifier ["txt"; "www"; "hello"] = Ok "28002dd")
    by (vm_compute; reflexivity).
  split; [exact Hid|].
  refine (proj1 (update_by_identifier
                   "valuedomain1" None (fun name => name)
                   "28002dd" "TXT" "www" "bye"
                   (mkWorld ("a www 1.1.1.1" ++ LF ++ "txt www hello"
                             ++ LF ++ "a www 2.2.2.2") [])
                   1 ["txt"; "www"; "hello"] _ _ _ _ Hid _)).
  - discriminate.
  - discriminate.
  - discriminate.
  - reflexivity.
  - intros j r Hj Hr. destruct j as [|j]; [|lia].
    vm_compute in Hr. injection Hr as <-. split.
    + exists "8539eac". split; [vm_compute; reflexivity | discriminate].
    + intros [Ht _]. vm_compute in Ht. discriminate.
Defined.

(** C5 as it is written fails: the zone holds the same line twice, the
    identifier is the one of the record at position 1 (and of its copy
    at position 0), and the update replaces position 0 and leaves
    position 1 as it was. *)
Lemma update_by_identifier_replaces_first_match :
  nth_error (parse_records ("a www 1.1.1.1" ++ LF ++ "a www 1.1.1.1")) 1
  = Some ["a"; "www"; "1.1.1.1"]
  /\ _identifier ["a"; "www"; "1.1.1.1"] = Ok "8539eac"
  /\ _update_record "valuedomain1" None (fun name => name)
                    (Some "8539eac") (Some "A") (Some "www") (Some "5.6.7.8")
                    (mkWorld ("a www 1.1.1.1" ++ LF ++ "a www 1.1.1.1") [])
     = (Ok true,
        stored "valuedomain1" None
               (mkWorld ("a www 1.1.1.1" ++ LF ++ "a www 1.1.1.1") [])
               [["a"; "www"; "5.6.7.8"]; ["a"; "www"; "1.1.1.1"]]).
Proof. repeat split; vm_compute; reflexivity. Qed.

(** The same happens when an earlier record only shares the type and
    the name of the arguments: the record that carries the identifier
    is at position 1, position 0 is replaced. *)
Example update_by_identifier_earlier_type_name :
  _identifier ["a"; "www"; "1.1.1.1"] = Ok "8539eac"
  /\ _identifier ["a"; "www"; "2.2.2.2"] = Ok "1fa919e"
  /\ _update_record "valuedomain1" None (fun name => name)
                    (Some "1fa919e") (Some "A") (Some "www") (Some "5.6.7.8")
                    (mkWorld ("a www 1.1.1.1" ++ LF ++ "a www 2.2.2.2") [])
     = (Ok true,
        stored "valuedomain1" None
               (mkWorld ("a www 1.1.1.1" ++ LF ++ "a www 2.2.2.2") [])
               [["a"; "www"; "5.6.7.8"]; ["a"; "www"; "2.2.2.2"]]).
Proof. repeat split; vm_compute; reflexivity. Qed.

(** ** Creating the same record twice *)

(** C2 fails on the code for a CNAME target without the final dot: the
    first call stores the target with the dot, the second call looks
    for the target as given, finds nothing and appends the record
    again.  Both calls return true and the zone holds the record
    twice. *)
Theorem create_cname_twice_duplicates
        (nameserver : string) (ttl_option : option Z)
        (base_relative_name : string -> string) :
  base_relative_name "foo" = "foo" ->
  let create := _create_record nameserver ttl_option base_relative_name
                               "CNAME" "foo" "example.com" in
  exists w1 w2,
    create (mkWorld "" []) = (Ok true, w1)
    /\ create w1 = (Ok true, w2)
    /\ parse_records (zone w1) = [["cname"; "foo"; "example.com."]]
    /\ parse_records (zone w2) = [["cname"; "foo"; "example.com."];
                                  ["cname"; "foo"; "example.com."]].
Proof.
  intros H create. subst create.
  unfold _create_record, _relative_name. rewrite H.
  do 2 eexists. repeat split; vm_compute; reflexivity.
Qed.

Lemma create_cname_twice_duplicates_witness :
  exists w1 w2,
    _create_record "valuedomain1" None (fun name => name)
                   "CNAME" "foo" "example.com" (mkWorld "" [])
    = (Ok true, w1)
    /\ _create_record "valuedomain1" None (fun name => name)
                      "CNAME" "foo" "example.com" w1
       = (Ok true, w2)
    /\ parse_records (zone w1) = [["cname"; "foo"; "example.com."]]
    /\ parse_records (zone w2) = [["cname"; "foo"; "example.com."];
                                  ["cname"; "foo"; "example.com."]].
Proof.
  apply (create_cname_twice_duplicates
           "valuedomain1" None (fun name => name)).
  reflexivity.
Defined.

(** With a target that is stored as given the second call changes
    nothing. *)
Example create_a_twice :
  let create := _create_record "valuedomain1" None (fun name => name)
                               "A" "www" "1.2.3.4" in
  let w1 := stored "valuedomain1" None (mkWorld "" [])
                   [["a"; "www"; "1.2.3.4"]] in
  create (mkWorld "" []) = (Ok true, w1)
  /\ create w1 = (Ok true, w1)
  /\ parse_records (zone w1) = [["a"; "www"; "1.2.3.4"]].
Proof. repeat split. Qed.

(** ** Creating a record that is stored as given *)

Lemma lower_char_idempotent (c : ascii) :
  PyStr.lower_char (PyStr.lower_char c) = PyStr.lower_char c.
Proof.
  destruct c as [[|] [|] [|] [|] [|] [|] [|] [|]]; reflexivity.
Qed.

Lemma lower_idempotent (s : string) :
  PyStr.lower (PyStr.lower s) = PyStr.lower s.
Proof.
  induction s as [|c s IH]; simpl; [reflexivity|].
  now rewrite lower_char_idempotent, IH.
Qed.

Lemma find_from_app_miss (l1 l2 : list record) :
  forall (index : Z) (identifier rtype name content : option string),
    0 <= index ->
    find_from index l1 identifier rtype name content = Ok (-1) ->
    find_from index (l1 ++ l2) identifier rtype name content
    = find_from (index + Z.of_nat (List.length l1)) l2
                identifier rtype name content.
Proof.
  induction l1 as [|rec rest IH]; intros index a b c d Hi H.
  - simpl. now rewrite Z.add_0_r.
  - assert (Hrest : find_from (index + 1) rest a b c d = Ok (-1) ->
                    find_from (index + 1) (rest ++ l2) a b c d
                    = find_from (index + Z.of_nat (List.length (rec :: rest)))
                                l2 a b c d).
    { intros Hr. rewrite IH by (assumption || lia).
      f_equal. cbn [List.length]. lia. }
    cbn [find_from app] in *.
    destruct (check a _) as [[|]|]; cbn [rbind] in *;
      [injection H; lia | | discriminate].
    destruct (check b _) as [[|]|]; cbn [rbind] in *;
      [auto | | discriminate].
    destruct (check c _) as [[|]|]; cbn [rbind] in *;
      [auto | | discriminate].
    destruct (check d _) as [[|]|]; cbn [rbind] in *;
      [auto | injection H; lia | discriminate].
Qed.

Lemma find_from_own_record (index : Z) (rtype name content : string) :
  name <> "" ->
  find_from index [[PyStr.lower rtype; name; content]]
            None (Some rtype) (Some name) (Some content)
  = Ok index.
Proof.
  intros Hn. cbn [find_from]. rewrite check_none. cbn [rbind].
  match goal with
  | |- context [check (Some rtype) ?f] =>
      assert (Ht : check (Some rtype) f = Ok false)
  end.
  { destruct rtype; [reflexivity|]. rewrite check_some by discriminate.
    cbn [getitem nth_error rbind].
    now rewrite lower_idempotent, String.eqb_refl. }
  rewrite Ht. cbn [rbind].
  rewrite (check_some name) by assumption. cbn [getitem nth_error rbind].
  rewrite String.eqb_refl. cbn [negb].
  match goal with
  | |- context [check (Some content) ?f] =>
      assert (Hc : check (Some content) f = Ok false)
  end.
  { destruct content; [reflexivity|]. rewrite check_some by discriminate.
    cbn [getitem nth_error rbind]. now rewrite String.eqb_refl. }
  rewrite Hc. reflexivity.
Qed.

Section Idempotence.

Variable nameserver : string.
Variable ttl_option : option Z.
Variable base_relative_name : string -> string.

Local Notation relative_name := (_relative_name base_relative_name).
Local Notation create_record :=
(_create_record nameserver ttl_option base_relative_name).

(** X12.  When the content is stored as given (the type is not [CNAME], or
  the target ends with a dot) and the zone with the new record is
  well formed, a second [_create_record] with the same arguments
  returns true and leaves the world of the first call as it is. *)
Lemma create_record_twice_stored_as_given
    (rtype name content : string) (w : world) :
let recs := parse_records (zone w) in
let rec := [PyStr.lower rtype; relative_name name; content] in
_bind_format_target (Some rtype) content = content ->
forallb well_formed (recs ++ [rec]) = true ->
exists w1,
  create_record rtype name content w = (Ok true, w1)
  /\ create_record rtype name content w1 = (Ok true, w1)
  /\ (w1 = w \/ parse_records (zone w1) = (recs ++ [rec])%list).
Proof.
intros recs rec Hfmt Hwf.
assert (Htrip : Forall is_triplet recs).
{ rewrite forallb_app, andb_true_iff in Hwf. destruct Hwf as [Hwf _].
  rewrite forallb_forall in Hwf. apply Forall_forall. intros r Hr.
  specialize (Hwf r Hr). destruct r as [|? [|? [|? [|? ?]]]];
    try discriminate. reflexivity. }
destruct (find_from_total recs Htrip 0 None (Some rtype)
            (Some (relative_name name)) (Some content)) as [k Hk].
pose proof (create_record_run nameserver ttl_option base_relative_name
              rtype name content w) as Run1.
cbv zeta in Run1. fold recs in Run1. rewrite Hfmt in Run1. fold rec in Run1.
unfold _find_resource_record_set in Run1. rewrite Hk in Run1.
destruct (k >=? 0) eqn:G.
- exists w. rewrite Run1. auto.
- exists (stored nameserver ttl_option w (recs ++ [rec])).
  assert (Hparse : parse_records
                     (zone (stored nameserver ttl_option w (recs ++ [rec])))
                   = (recs ++ [rec])%list)
    by (apply parse_record_txt, Hwf).
  split; [exact Run1|]. split; [|right; exact Hparse].
  rewrite create_record_run. rewrite Hparse, Hfmt. fold rec.
  unfold _find_resource_record_set.
  assert (Hmiss : k = -1).
  { pose proof (find_from_range _ _ _ _ _ _ _ (Z.le_refl 0) Hk) as R.
    rewrite Z.geb_leb in G. apply Z.leb_gt in G. lia. }
  subst k. rewrite find_from_app_miss by (lia || exact Hk).
  unfold rec. rewrite find_from_own_record
    by apply (relative_name_nonempty base_relative_name).
  replace (0 + Z.of_nat (List.length recs) >=? 0) with true
    by (symmetry; apply Z.geb_le; lia).
  reflexivity.
Qed.

End Idempotence.

Lemma forallb_filter_id {A} (p : A -> bool) (l : list A) :
  forallb p l = true -> filter p l = l.
Proof.
  induction l as [|x l IH]; [reflexivity|].
  cbn [forallb filter]. intros H. apply andb_true_iff in H as [Hx Hl].
  now rewrite Hx, IH.
Qed.

(** * Further properties *)

(** ** The shape of what the parser returns *)

Lemma no_linebreak_snoc (line : string) (c : ascii) :
  no_linebreak line = true -> PyStr.islinebreak c = false ->
  no_linebreak (line ++ String c "") = true.
Proof.
  intros Hl Hc. rewrite no_linebreak_app, Hl. unfold no_linebreak. simpl.
  now rewrite Hc.
Qed.

Lemma no_space_snoc (piece : string) (c : ascii) :
  no_space piece = true -> PyStr.isspace c = false ->
  no_space (piece ++ String c "") = true.
Proof.
  intros Hp Hc. unfold no_space in *.
  induction piece as [|x piece IH]; simpl in *.
  - now rewrite Hc.
  - apply andb_true_iff in Hp as [Hx Hp]. now rewrite Hx, IH.
Qed.

Lemma splitlines_from_lines (s : string) :
  (forall line, no_linebreak line = true ->
                Forall (fun l => no_linebreak l = true)
                       (PyStr.splitlines_from line s))
  /\ (forall c line, no_linebreak line = true ->
                     Forall (fun l => no_linebreak l = true)
                            (PyStr.splitlines_from line (String c s))).
Proof.
  induction s as [|d s [IH1 IH2]].
  - assert (B : forall line, no_linebreak line = true ->
                             Forall (fun l => no_linebreak l = true)
                                    (PyStr.splitlines_from line "")).
    { intros line H. cbn [PyStr.splitlines_from].
      destruct line; repeat constructor; exact H. }
    split; [exact B|].
    intros c line H. cbn [PyStr.splitlines_from].
    destruct (PyStr.islinebreak c) eqn:E.
    + constructor; [exact H | constructor].
    + apply B. now apply no_linebreak_snoc.
  - split; [exact (IH2 d)|].
    intros c line H. cbn [PyStr.splitlines_from].
    destruct (PyStr.islinebreak c) eqn:E.
    + constructor; [exact H|].
      destruct (Ascii.eqb c "013" && Ascii.eqb d "010");
        [apply IH1 | apply (IH2 d)]; reflexivity.
    + apply (IH2 d). now apply no_linebreak_snoc.
Qed.

Lemma splitlines_no_linebreak (blob : string) :
  Forall (fun l => no_linebreak l = true) (PyStr.splitlines blob).
Proof. apply (proj1 (splitlines_from_lines blob)). reflexivity. Qed.

Lemma no_linebreak_cons (c : ascii) (s : string) :
  no_linebreak (String c s) = true ->
  PyStr.islinebreak c = false /\ no_linebreak s = true.
Proof.
  unfold no_linebreak. simpl. rewrite andb_true_iff, negb_true_iff. tauto.
Qed.

Lemma re_split_from_no_linebreak (s : string) :
  forall (m : nat) (b : bool) (piece : string),
    no_linebreak piece = true -> no_linebreak s = true ->
    Forall (fun f => no_linebreak f = true) (PyStr.re_split_from m b piece s).
Proof.
  induction s as [|c s IH]; intros m b p Hp Hs; cbn [PyStr.re_split_from].
  - repeat constructor. exact Hp.
  - pose proof (no_linebreak_cons _ _ Hs) as [Hc Hs'].
    destruct (b && PyStr.isspace c); [now apply IH|].
    destruct m as [|m].
    + repeat constructor. now rewrite no_linebreak_app, Hp, Hs.
    + destruct (PyStr.isspace c).
      * constructor; [exact Hp | now apply IH].
      * apply IH; [now apply no_linebreak_snoc | exact Hs'].
Qed.

Lemma removelast_cons_nonempty {A} (x : A) (l : list A) :
  l <> [] -> removelast (x :: l) = x :: removelast l.
Proof. destruct l; [congruence | reflexivity]. Qed.

Lemma last_cons_nonempty {A} (x d : A) (l : list A) :
  l <> [] -> last (x :: l) d = last l d.
Proof. destruct l; [congruence | reflexivity]. Qed.

Lemma re_split_from_nonempty (s : string) (m : nat) (b : bool)
      (piece : string) :
  PyStr.re_split_from m b piece s <> [].
Proof.
  pose proof (re_split_from_length s m b piece) as H.
  destruct (PyStr.re_split_from m b piece s); [simpl in H; lia | discriminate].
Qed.

(** Every field before the last one is free of white space. *)
Lemma re_split_from_heads (s : string) :
  forall (m : nat) (b : bool) (piece : string),
    no_space piece = true ->
    Forall (fun f => no_space f = true)
           (removelast (PyStr.re_split_from m b piece s)).
Proof.
  induction s as [|c s IH]; intros m b p Hp; cbn [PyStr.re_split_from].
  - constructor.
  - destruct (b && PyStr.isspace c); [now apply IH|].
    destruct m as [|m]; [constructor|].
    destruct (PyStr.isspace c) eqn:E.
    + rewrite removelast_cons_nonempty by apply re_split_from_nonempty.
      constructor; [exact Hp | now apply IH].
    + apply IH. now apply no_space_snoc.
Qed.

(** Once all the splits are used, the last field starts where a run of
    white space ends. *)
Lemma re_split_from_rest (s : string) :
  forall (m : nat) (b : bool) (piece : string),
    (m = O -> b = true) -> (b = true -> piece = "") ->
    List.length (PyStr.re_split_from m b piece s) = S m ->
    starts_with_space (last (PyStr.re_split_from m b piece s) "") = false.
Proof.
  induction s as [|c s IH]; intros m b p Hm Hb; cbn [PyStr.re_split_from].
  - intros L. simpl in L. injection L as <-.
    rewrite (Hb (Hm eq_refl)). reflexivity.
  - destruct (b && PyStr.isspace c) eqn:E;
      [apply andb_true_iff in E as [-> _]; apply IH; auto|].
    destruct m as [|m].
    + intros _. rewrite (Hm eq_refl) in *. rewrite (Hb eq_refl).
      simpl in E. simpl. exact E.
    + destruct (PyStr.isspace c).
      * intros L. cbn [List.length] in L. injection L as L.
        rewrite last_cons_nonempty by apply re_split_from_nonempty.
        apply IH; auto.
      * apply IH; discriminate.
Qed.

(** A field that is neither the first nor the last is not empty. *)
Lemma re_split_from_inner (s : string) :
  forall (m : nat) (b : bool) (piece : string),
    (b = true -> piece = "") -> (b = false -> piece <> "") ->
    Forall (fun f => nonempty f = true)
           (removelast (PyStr.re_split_from m b piece s)).
Proof.
  induction s as [|c s IH]; intros m b p Ht Hf; cbn [PyStr.re_split_from].
  - constructor.
  - destruct (b && PyStr.isspace c) eqn:E;
      [apply andb_true_iff in E as [-> _]; apply IH; auto; discriminate|].
    destruct m as [|m]; [constructor|].
    destruct (PyStr.isspace c) eqn:Sp.
    + rewrite removelast_cons_nonempty by apply re_split_from_nonempty.
      assert (Hbf : b = false) by (destruct b; [discriminate | reflexivity]).
      constructor.
      * specialize (Hf Hbf). destruct p; [congruence | reflexivity].
      * apply IH; [reflexivity | discriminate].
    + apply IH; [discriminate|].
      intros _. destruct p; discriminate.
Qed.

Lemma re_split_space_inner (s : string) (m : nat) :
  Forall (fun f => nonempty f = true)
         (tl (removelast (PyStr.re_split_space s m))).
Proof.
  unfold PyStr.re_split_space. destruct s as [|c s]; [constructor|].
  cbn [PyStr.re_split_from andb]. destruct m as [|m]; [constructor|].
  destruct (PyStr.isspace c).
  - rewrite removelast_cons_nonempty by apply re_split_from_nonempty.
    apply re_split_from_inner; [reflexivity | discriminate].
  - assert (H : Forall (fun f => nonempty f = true)
                       (removelast (PyStr.re_split_from (S m) false
                                      ("" ++ String c "") s)))
      by (apply re_split_from_inner; discriminate).
    destruct (removelast _); [constructor | now inversion H].
Qed.

Lemma parsed_triplet_storable (line : string) (rec : record) :
  no_linebreak line = true ->
  PyStr.re_split_space line 2 = rec -> List.length rec = 3%nat ->
  storable rec = true.
Proof.
  intros Hline <- L.
  pose proof (re_split_from_heads line 2 false "" eq_refl) as Hh.
  pose proof (re_split_from_rest line 2 false "") as Hr.
  pose proof (re_split_space_inner line 2) as Hi.
  pose proof (re_split_from_no_linebreak line 2 false "" eq_refl Hline) as Hn.
  unfold PyStr.re_split_space in *.
  destruct (PyStr.re_split_from 2 false "" line)
    as [|t [|n [|c [|x rest]]]]; try discriminate.
  cbn in Hh, Hi. specialize (Hr ltac:(discriminate) ltac:(discriminate) eq_refl).
  cbn in Hr.
  inversion Hh as [|? ? Ht Hh']; subst. inversion Hh' as [|? ? Hns _]; subst.
  inversion Hi as [|? ? Hne _]; subst.
  inversion Hn as [|? ? _ Hn1]; subst. inversion Hn1 as [|? ? _ Hn2]; subst.
  inversion Hn2 as [|? ? Hc _]; subst.
  unfold storable. now rewrite Ht, Hne, Hns, Hr, Hc.
Qed.

(** X1.  The fields that the parser returns.  No field holds a line
    break, no field before the last holds white space, and a tuple of
    three fields has a name that is not empty and a content that does
    not start with white space. *)
Theorem parsed_fields_shape (blob : string) :
  Forall (fun rec =>
            Forall (fun f => no_linebreak f = true) rec
            /\ Forall (fun f => no_space f = true) (removelast rec)
            /\ (List.length rec = 3%nat -> storable rec = true))
         (parse_records blob).
Proof.
  unfold parse_records. apply Forall_map.
  pose proof (splitlines_no_linebreak blob) as H.
  eapply Forall_impl; [|exact H]. cbv beta. intros line Hline.
  split; [|split].
  - now apply re_split_from_no_linebreak.
  - now apply re_split_from_heads.
  - intros L. now apply (parsed_triplet_storable line).
Qed.

(** ** Round trip, as far as it goes *)

Lemma re_split_storable (rec : record) :
  storable rec = true ->
  PyStr.re_split_space (PyStr.join " " rec) 2 = rec.
Proof.
  destruct rec as [|t [|n [|c [|x rest]]]]; try discriminate.
  unfold storable. rewrite !andb_true_iff, !negb_true_iff.
  intros [[[[Hst Hn] Hsn] Hcs] _].
  unfold PyStr.re_split_space, PyStr.join.
  change (concat " " [t; n; c]) with (t ++ String " " (n ++ String " " c)).
  rewrite re_split_field by (assumption || exact space_is_space).
  simpl ("" ++ t). f_equal.
  destruct n as [|a n]; [discriminate|].
  assert (Ha : PyStr.isspace a = false).
  { unfold no_space in Hsn. simpl in Hsn.
    apply andb_true_iff in Hsn as [Ha _]. now apply negb_true_iff in Ha. }
  change (String a n ++ String " " c) with (String a (n ++ String " " c)).
  rewrite re_split_leave_match by exact Ha.
  change (String a (n ++ String " " c)) with (String a n ++ String " " c).
  rewrite re_split_field by (assumption || exact space_is_space).
  simpl ("" ++ _). f_equal.
  destruct c as [|b c]; [reflexivity|].
  simpl in Hcs. simpl. rewrite Hcs. reflexivity.
Qed.

Lemma storable_line (rec : record) :
  storable rec = true ->
  nonempty (PyStr.join " " rec) = true
  /\ no_linebreak (PyStr.join " " rec) = true.
Proof.
  destruct rec as [|t [|n [|c [|x rest]]]]; try discriminate.
  unfold storable. rewrite !andb_true_iff, !negb_true_iff.
  intros [[[[Hst Hn] Hsn] _] Hlc].
  unfold PyStr.join.
  change (concat " " [t; n; c]) with (t ++ " " ++ n ++ " " ++ c).
  split.
  - destruct t; reflexivity.
  - rewrite !no_linebreak_app.
    rewrite (no_space_no_linebreak t Hst), (no_space_no_linebreak n Hsn), Hlc.
    reflexivity.
Qed.

Lemma parse_record_txt_storable (recs : list record) :
  forallb storable recs = true ->
  parse_records (record_txt recs) = recs.
Proof.
  intros H. rewrite forallb_forall in H.
  unfold parse_records, record_txt.
  rewrite splitlines_join.
  - rewrite map_map. rewrite <- (map_id recs) at 2.
    apply map_ext_in. intros rec Hin. apply re_split_storable, H, Hin.
  - apply Forall_map, Forall_forall. intros rec Hin.
    apply storable_line, H, Hin.
Qed.

Lemma parsed_triplets_storable (blob : string) :
  Forall is_triplet (parse_records blob) ->
  forallb storable (parse_records blob) = true.
Proof.
  intros T. apply forallb_forall. intros rec Hin.
  assert (H : Forall (fun rec => List.length rec = 3%nat -> storable rec = true)
                     (parse_records blob)).
  { unfold parse_records. apply Forall_map.
    pose proof (splitlines_no_linebreak blob) as Hl.
    eapply Forall_impl; [|exact Hl]. cbv beta. intros line Hline L.
    now apply (parsed_triplet_storable line). }
  rewrite Forall_forall in H, T. apply H; [exact Hin | apply T, Hin].
Qed.

Lemma well_formed_storable (rec : record) :
  well_formed rec = true -> storable rec = true.
Proof.
  destruct rec as [|t [|n [|c [|x rest]]]]; try discriminate.
  unfold well_formed, storable. rewrite !andb_true_iff.
  intros [[[[[[[Ht Hn] Hc] Hst] Hsn] Hcs] _] Hl]. auto.
Qed.

(** X2.  Which triplets survive the round trip.  Parsing the text
    written for a sequence of triplets gives the sequence back exactly
    when every triplet is storable. *)
Theorem roundtrip_iff_storable (recs : list record) :
  Forall is_triplet recs ->
  parse_records (record_txt recs) = recs <-> forallb storable recs = true.
Proof.
  intros T. split.
  - intros E. rewrite <- E. apply parsed_triplets_storable.
    rewrite E. exact T.
  - apply parse_record_txt_storable.
Qed.

Lemma roundtrip_iff_storable_witness :
  parse_records (record_txt [[""; "www"; ""]; ["txt"; "@"; "a  b "]])
  = [[""; "www"; ""]; ["txt"; "@"; "a  b "]]
  <-> forallb storable [[""; "www"; ""]; ["txt"; "@"; "a  b "]] = true.
Proof.
  apply (roundtrip_iff_storable [[""; "www"; ""]; ["txt"; "@"; "a  b "]]).
  repeat constructor.
Defined.

(** X3.  The text of a zone of triplets is stable.  When every line of
    the zone has three fields, writing the parsed records and parsing
    the text again gives the same records. *)
Theorem parse_normal_form (blob : string) :
  Forall is_triplet (parse_records blob) ->
  parse_records (record_txt (parse_records blob)) = parse_records blob.
Proof.
  intros T. now apply parse_record_txt_storable, parsed_triplets_storable.
Qed.

Lemma parse_normal_form_witness :
  parse_records
    (record_txt (parse_records (" www   1.2.3.4 " ++ LF ++ "txt @  a  b")))
  = parse_records (" www   1.2.3.4 " ++ LF ++ "txt @  a  b").
Proof.
  apply (parse_normal_form (" www   1.2.3.4 " ++ LF ++ "txt @  a  b")).
  vm_compute. repeat constructor.
Defined.

(** ** The search, position by position *)

Lemma first_index_some {A} (p : A -> bool) (l : list A) (j : nat) :
  first_index p l = Some j ->
  (j < List.length l)%nat
  /\ (exists x, nth_error l j = Some x /\ p x = true)
  /\ Forall (fun y => p y = false) (firstn j l).
Proof.
  revert j. induction l as [|x l IH]; intros j; cbn [first_index];
    [discriminate|].
  destruct (p x) eqn:Px.
  - intros [= <-]. cbn. split; [lia|]. split; [eauto | constructor].
  - destruct (first_index p l) as [k|]; cbn [option_map]; [|discriminate].
    intros [= <-]. destruct (IH k eq_refl) as [Hk [Hx Hb]].
    cbn. split; [lia|]. split; [exact Hx | constructor; assumption].
Qed.

Lemma first_index_none {A} (p : A -> bool) (l : list A) :
  first_index p l = None -> Forall (fun y => p y = false) l.
Proof.
  induction l as [|x l IH]; cbn [first_index]; [constructor|].
  destruct (p x) eqn:Px; [discriminate|].
  destruct (first_index p l); cbn [option_map]; [discriminate|].
  intros _. constructor; auto.
Qed.

Lemma first_index_replace_at (p : record -> bool) (recs : list record)
      (j : nat) (rec : record) :
  first_index p recs = Some j -> p rec = true ->
  first_index p (replace_at j rec recs) = Some j.
Proof.
  revert j. induction recs as [|x l IH]; intros j; cbn [first_index];
    [discriminate|].
  destruct (p x) eqn:Px.
  - intros [= <-] Hr. unfold replace_at. cbn. now rewrite Hr.
  - destruct (first_index p l) as [k|]; cbn [option_map]; [|discriminate].
    intros [= <-] Hr. unfold replace_at in *. cbn [firstn skipn app first_index].
    rewrite Px. cbn [skipn] in IH. now rewrite (IH k eq_refl Hr).
Qed.

Lemma first_index_app_none {A} (p : A -> bool) (recs : list A) (rec : A) :
  first_index p recs = None -> p rec = true ->
  first_index p (recs ++ [rec]) = Some (List.length recs).
Proof.
  induction recs as [|x l IH]; cbn [first_index app List.length].
  - intros _ ->. reflexivity.
  - destruct (p x); [discriminate|].
    destruct (first_index p l); cbn [option_map]; [discriminate|].
    intros _ Hr. now rewrite IH.
Qed.

Lemma replace_at_twice (j : nat) (rec : record) (recs : list record) :
  (j < List.length recs)%nat ->
  replace_at j rec (replace_at j rec recs) = replace_at j rec recs.
Proof.
  revert j. induction recs as [|x l IH]; intros j H; simpl in H; [lia|].
  destruct j as [|j]; [reflexivity|].
  unfold replace_at in *. cbn [firstn skipn app]. f_equal.
  cbn [skipn] in IH. apply IH. lia.
Qed.

Lemma replace_at_appended (rec : record) (recs : list record) :
  replace_at (List.length recs) rec (recs ++ [rec]) = (recs ++ [rec])%list.
Proof.
  induction recs as [|x l IH]; [reflexivity|].
  unfold replace_at in *. cbn [List.length firstn skipn app]. f_equal.
  cbn [skipn] in IH. exact IH.
Qed.

Lemma forallb_replace_at (p : record -> bool) (j : nat) (rec : record)
      (recs : list record) :
  forallb p recs = true -> p rec = true ->
  forallb p (replace_at j rec recs) = true.
Proof.
  revert j. induction recs as [|x l IH]; intros j H Hr.
  - unfold replace_at. destruct j; cbn; now rewrite Hr.
  - cbn [forallb] in H. apply andb_true_iff in H as [Hx Hl].
    destruct j as [|j]; unfold replace_at in *.
    + cbn. now rewrite Hr, Hl.
    + cbn [firstn skipn app forallb]. rewrite Hx.
      cbn [skipn] in IH. now apply IH.
Qed.

Lemma storable_triplet (rec : record) : storable rec = true -> is_triplet rec.
Proof.
  destruct rec as [|? [|? [|? [|? ?]]]]; try discriminate. reflexivity.
Qed.

Lemma storable_triplets (recs : list record) :
  forallb storable recs = true -> Forall is_triplet recs.
Proof.
  rewrite forallb_forall. intros H. apply Forall_forall. intros r Hr.
  apply storable_triplet, H, Hr.
Qed.

Lemma find_from_first_index (recs : list record) :
  Forall is_triplet recs ->
  forall (index : Z) (identifier rtype name content : option string),
    find_from index recs identifier rtype name content
    = Ok (match first_index (accepts identifier rtype name content) recs with
          | Some j => index + Z.of_nat j
          | None => -1
          end).
Proof.
  induction 1 as [|rec rest T _ IH]; intros index a b c d; [reflexivity|].
  destruct rec as [|x [|y [|z [|u more]]]]; try discriminate.
  cbn [find_from first_index].
  specialize (IH (index + 1) a b c d).
  set (tailix := first_index (accepts a b c d) rest) in *.
  assert (Hnext : find_from (index + 1) rest a b c d
                  = Ok match option_map S tailix with
                       | Some j => index + Z.of_nat j
                       | None => -1
                       end).
  { rewrite IH. destruct tailix; cbn [option_map]; f_equal; lia. }
  clearbody tailix. clear IH.
  unfold accepts, agrees, check. rewrite identifier_triplet.
  cbn [getitem nth_error nth rbind].
  destruct (given a) as [ia|]; destruct (given b) as [tb|];
    destruct (given c) as [nc|]; destruct (given d) as [cd|];
    cbn [rbind];
    repeat match goal with
           | |- context [String.eqb ?u ?v] => destruct (String.eqb u v)
           end;
    cbn [negb orb andb rbind];
    first [exact Hnext | f_equal; simpl; lia].
Qed.

(** X4.  What the search returns on a zone of triplets.  It is -1 when
    no record is accepted, and otherwise the position of the first
    accepted record: the one that has the identifier, or whose fields
    agree with all the given ones. *)
Theorem find_first_accepted (recs : list record)
        (identifier rtype name content : option string) :
  Forall is_triplet recs ->
  exists k,
    _find_resource_record_set recs identifier rtype name content = Ok k
    /\ ((k = -1
         /\ Forall (fun rec => accepts identifier rtype name content rec
                               = false) recs)
        \/ (exists j rec,
               k = Z.of_nat j /\ nth_error recs j = Some rec
               /\ accepts identifier rtype name content rec = true
               /\ Forall (fun r => accepts identifier rtype name content r
                                   = false) (firstn j recs))).
Proof.
  intros T. unfold _find_resource_record_set.
  rewrite (find_from_first_index recs T).
  destruct (first_index (accepts identifier rtype name content) recs)
    as [j|] eqn:F; eexists; (split; [reflexivity|]).
  - right. apply first_index_some in F as [_ [[rec [Hn Ha]] Hb]].
    exists j, rec. rewrite Z.add_0_l. auto.
  - left. split; [reflexivity | now apply first_index_none].
Qed.

Lemma find_first_accepted_witness :
  exists k,
    _find_resource_record_set
      [["a"; "www"; "1.1.1.1"]; ["txt"; "www"; "hello"];
       ["a"; "mail"; "2.2.2.2"]]
      (Some "28002dd") (Some "A") (Some "mail") None = Ok k
    /\ ((k = -1
         /\ Forall (fun rec => accepts (Some "28002dd") (Some "A")
                                       (Some "mail") None rec = false)
                   [["a"; "www"; "1.1.1.1"]; ["txt"; "www"; "hello"];
                    ["a"; "mail"; "2.2.2.2"]])
        \/ (exists j rec,
               k = Z.of_nat j
               /\ nth_error [["a"; "www"; "1.1.1.1"]; ["txt"; "www"; "hello"];
                             ["a"; "mail"; "2.2.2.2"]] j = Some rec
               /\ accepts (Some "28002dd") (Some "A") (Some "mail") None rec
                  = true
               /\ Forall (fun r => accepts (Some "28002dd") (Some "A")
                                           (Some "mail") None r = false)
                         (firstn j [["a"; "www"; "1.1.1.1"];
                                    ["txt"; "www"; "hello"];
                                    ["a"; "mail"; "2.2.2.2"]]))).
Proof.
  apply (find_first_accepted
           [["a"; "www"; "1.1.1.1"]; ["txt"; "www"; "hello"];
            ["a"; "mail"; "2.2.2.2"]]).
  repeat constructor.
Defined.

Lemma accepts_by_type_name (identifier : option string)
      (rtype name content : string) :
  rtype <> "" -> name <> "" ->
  accepts identifier (Some rtype) (Some name) None
          [PyStr.lower rtype; name; content] = true.
Proof.
  intros Ht Hn. unfold accepts, agrees.
  rewrite !given_some by assumption. cbn [nth given].
  rewrite lower_idempotent, !String.eqb_refl. apply orb_true_r.
Qed.

Lemma first_index_all_false {A} (p : A -> bool) (l : list A) :
  Forall (fun x => p x = false) l -> first_index p l = None.
Proof.
  induction 1 as [|x l Hx _ IH]; [reflexivity|].
  cbn [first_index]. now rewrite Hx, IH.
Qed.

Lemma filter_all_false {A} (p : A -> bool) (l : list A) :
  Forall (fun x => p x = false) l ->
  filter p l = [] /\ filter (fun x => negb (p x)) l = l.
Proof.
  induction 1 as [|x l Hx _ [IH1 IH2]]; [split; reflexivity|].
  cbn [filter]. rewrite Hx. cbn [negb]. now rewrite IH1, IH2.
Qed.

Lemma first_type_name_none (rtype name : string) (recs : list record) :
  first_type_name rtype name recs = None ->
  Forall (fun rec =>
            String.eqb (PyStr.lower (nth 0 rec "")) (PyStr.lower rtype)
            && String.eqb (nth 1 rec "") name = false) recs.
Proof.
  induction recs as [|rec rest IH]; cbn [first_type_name]; [constructor|].
  destruct (_ && _) eqn:E; [discriminate|].
  destruct (first_type_name rtype name rest); cbn [option_map];
    [discriminate|].
  intros _. constructor; auto.
Qed.

(** A triplet with another type or another name is neither accepted by
    the search of [_create_record] nor selected by [_delete_record]. *)
Lemma other_type_name_not_matched (rtype name : string)
      (content content' : option string) (rec : record) :
  rtype <> "" -> name <> "" -> is_triplet rec ->
  String.eqb (PyStr.lower (nth 0 rec "")) (PyStr.lower rtype)
  && String.eqb (nth 1 rec "") name = false ->
  accepts None (Some rtype) (Some name) content rec = false
  /\ selected None (Some rtype) (Some name) content' rec = false.
Proof.
  intros Ht Hn T E.
  destruct rec as [|x [|y [|z [|u more]]]]; try discriminate.
  cbn [nth] in E. split.
  - unfold accepts, agrees. rewrite !given_some by assumption.
    cbn [given nth orb].
    destruct (String.eqb (PyStr.lower x) (PyStr.lower rtype));
      [|reflexivity].
    cbn [andb] in *. now rewrite E.
  - unfold selected, delete_selects.
    rewrite check_none, !check_some by assumption.
    cbn [getitem nth_error rbind].
    destruct (String.eqb (PyStr.lower x) (PyStr.lower rtype));
      cbn [negb]; [|reflexivity].
    cbn [andb] in E. rewrite E. reflexivity.
Qed.

Lemma own_record_selected (rtype name content : string) :
  name <> "" ->
  selected None (Some rtype) (Some name) (Some content)
           [PyStr.lower rtype; name; content] = true.
Proof.
  intros Hn. unfold selected, delete_selects.
  rewrite check_none. cbn [rbind].
  match goal with
  | |- context [check (Some rtype) ?f] =>
      assert (Ht : check (Some rtype) f = Ok false)
  end.
  { destruct rtype; [reflexivity|]. rewrite check_some by discriminate.
    cbn [getitem nth_error rbind].
    now rewrite lower_idempotent, String.eqb_refl. }
  rewrite Ht. cbn [rbind].
  rewrite (check_some name) by assumption. cbn [getitem nth_error rbind].
  rewrite String.eqb_refl. cbn [negb].
  match goal with
  | |- context [check (Some content) ?f] =>
      assert (Hc : check (Some content) f = Ok false)
  end.
  { destruct content; [reflexivity|]. rewrite check_some by discriminate.
    cbn [getitem nth_error rbind]. now rewrite String.eqb_refl. }
  rewrite Hc. reflexivity.
Qed.

(** ** The operations on a zone of triplets *)

Lemma filter_rejected_selected (p : record -> bool) (l : list record) :
  filter p (filter (fun rec => negb (p rec)) l) = [].
Proof.
  induction l as [|x l IH]; [reflexivity|].
  cbn [filter]. destruct (p x) eqn:Px; cbn [negb filter]; [exact IH|].
  now rewrite Px.
Qed.

Lemma forallb_filter (p q : record -> bool) (l : list record) :
  forallb p l = true -> forallb p (filter q l) = true.
Proof.
  rewrite !forallb_forall. intros H x Hx. apply H.
  now apply filter_In in Hx.
Qed.

Lemma remove_each_all (recs : list record) : remove_each recs recs = Ok [].
Proof.
  induction recs as [|x l IH]; [reflexivity|].
  cbn [remove_each list_remove]. now rewrite record_eqb_refl.
Qed.

Lemma filtered_records_no_filter (recs : list record) :
  filtered_records recs None None None None = Ok recs.
Proof.
  induction recs as [|x l IH]; [reflexivity|].
  cbn [filtered_records]. unfold delete_selects. rewrite !check_none.
  cbn [rbind]. now rewrite IH.
Qed.

Section Composition.

Variable nameserver : string.
Variable ttl_option : option Z.
Variable base_relative_name : string -> string.

Local Notation relative_name := (_relative_name base_relative_name).
Local Notation create_record :=
  (_create_record nameserver ttl_option base_relative_name).
Local Notation update_record :=
  (_update_record nameserver ttl_option base_relative_name).
Local Notation delete_record :=
  (_delete_record nameserver ttl_option base_relative_name).
Local Notation store := (stored nameserver ttl_option).

Lemma parse_stored (w : world) (recs : list record) :
  forallb storable recs = true ->
  parse_records (zone (store w recs)) = recs.
Proof. apply parse_record_txt_storable. Qed.

Lemma update_record_on_triplets (identifier : option string)
      (rtype name content : string) (w : world) :
  rtype <> "" -> name <> "" -> content <> "" ->
  Forall is_triplet (parse_records (zone w)) ->
  let recs := parse_records (zone w) in
  let rec := [PyStr.lower rtype; relative_name name;
              _bind_format_target (Some rtype) content] in
  update_record identifier (Some rtype) (Some name) (Some content) w
  = (Ok true,
     store w match first_index
                     (accepts identifier (Some rtype)
                              (Some (relative_name name)) None) recs with
             | Some j => replace_at j rec recs
             | None => (recs ++ [rec])%list
             end).
Proof.
  intros Ht Hn Hc T recs rec.
  rewrite (update_record_run nameserver ttl_option base_relative_name)
    by assumption.
  fold recs rec. unfold _find_resource_record_set.
  rewrite (find_from_first_index recs T).
  destruct (first_index _ recs) as [j|] eqn:F; [|reflexivity].
  apply first_index_some in F as [Hj _].
  replace (0 + Z.of_nat j >=? 0) with true
    by (symmetry; apply Z.geb_le; lia).
  rewrite Z.add_0_l, setitem_replace by exact Hj. reflexivity.
Qed.

Lemma create_record_on_triplets (rtype name content : string) (w : world) :
  Forall is_triplet (parse_records (zone w)) ->
  let recs := parse_records (zone w) in
  let rec := [PyStr.lower rtype; relative_name name;
              _bind_format_target (Some rtype) content] in
  create_record rtype name content w
  = (Ok true,
     match first_index
             (accepts None (Some rtype) (Some (relative_name name))
                      (Some content)) recs with
     | Some _ => w
     | None => store w (recs ++ [rec])
     end).
Proof.
  intros T recs rec.
  rewrite (create_record_run nameserver ttl_option base_relative_name).
  fold recs rec. unfold _find_resource_record_set.
  rewrite (find_from_first_index recs T).
  destruct (first_index _ recs) as [j|] eqn:F; [|reflexivity].
  replace (0 + Z.of_nat j >=? 0) with true
    by (symmetry; apply Z.geb_le; lia).
  reflexivity.
Qed.

Lemma delete_record_on_triplets
      (identifier rtype name content : option string) (w : world) :
  Forall is_triplet (parse_records (zone w)) ->
  let recs := parse_records (zone w) in
  let chosen :=
    selected identifier rtype (option_map relative_name name)
             (option_map (_bind_format_target rtype) content) in
  delete_record identifier rtype name content w
  = match filter chosen recs with
    | [] => (Ok false, w)
    | _ :: _ => (Ok true, store w (filter (fun rec => negb (chosen rec)) recs))
    end.
Proof.
  intros T recs chosen.
  rewrite (delete_record_run nameserver ttl_option base_relative_name).
  fold recs.
  pose proof (filtered_records_filter
                recs identifier rtype (option_map relative_name name)
                (option_map (_bind_format_target rtype) content)) as F.
  destruct (filtered_records recs identifier rtype _ _) as [fs|e].
  - fold chosen in F. subst fs.
    destruct (filter chosen recs) as [|f fs] eqn:E; [reflexivity|].
    rewrite <- E, remove_each_filter. reflexivity.
  - destruct F as [_ F]. contradiction.
Qed.

(** X5.  Every operation stores the zone at most once.  A call of
    [_create_record], [_update_record] or [_delete_record] that
    raises leaves the world as it was; one that returns has issued
    no request to write or exactly one, which replaces the zone
    text, and then it returns true. *)
Theorem operations_store_at_most_once
        (identifier rtype name content : option string)
        (ctype cname ccontent : string) (w : world) :
  stores_at_most_once nameserver ttl_option w
                      (create_record ctype cname ccontent w)
  /\ stores_at_most_once nameserver ttl_option w
                         (update_record identifier rtype name content w)
  /\ stores_at_most_once nameserver ttl_option w
                         (delete_record identifier rtype name content w).
Proof.
  unfold stores_at_most_once. split; [|split].
  - rewrite (create_record_run nameserver ttl_option base_relative_name).
    destruct (_find_resource_record_set _ _ _ _ _) as [k|e];
      [|reflexivity].
    destruct (k >=? 0); cbn [fst snd]; [now left|].
    right. split; [reflexivity | eexists; reflexivity].
  - destruct rtype as [[|ct rtype]|]; try reflexivity;
      destruct name as [[|cn name]|]; try reflexivity;
      destruct content as [[|cc content]|]; try reflexivity.
    rewrite (update_record_run nameserver ttl_option base_relative_name)
      by discriminate.
    destruct (_find_resource_record_set _ _ _ _ _) as [k|e];
      [|reflexivity].
    destruct (k >=? 0); cbn [fst snd].
    + destruct (setitem _ _ _) as [recs'|e]; cbn [fst snd];
        [|reflexivity].
      right. split; [reflexivity | eexists; reflexivity].
    + right. split; [reflexivity | eexists; reflexivity].
  - rewrite (delete_record_run nameserver ttl_option base_relative_name).
    destruct (filtered_records _ _ _ _ _) as [[|f fs]|e];
      cbn [fst snd]; try reflexivity; [now left|].
    destruct (remove_each (f :: fs) _) as [recs'|e]; cbn [fst snd];
      [|reflexivity].
    right. split; [reflexivity | eexists; reflexivity].
Qed.

(** X6.  [_update_record] on a zone of triplets.  With type, name and
    content present it returns true and stores the zone with the new
    record in the place of the first record that the search accepts
    (by the identifier, or by type and relative name), or appended
    when the search accepts none. *)
Theorem update_record_replaces_or_appends
        (identifier : option string) (rtype name content : string)
        (w : world) :
  rtype <> "" -> name <> "" -> content <> "" ->
  Forall is_triplet (parse_records (zone w)) ->
  let recs := parse_records (zone w) in
  let rec := [PyStr.lower rtype; relative_name name;
              _bind_format_target (Some rtype) content] in
  update_record identifier (Some rtype) (Some name) (Some content) w
  = (Ok true,
     store w match first_index
                     (accepts identifier (Some rtype)
                              (Some (relative_name name)) None) recs with
             | Some j => replace_at j rec recs
             | None => (recs ++ [rec])%list
             end).
Proof. exact (update_record_on_triplets identifier rtype name content w). Qed.

(** X7.  [_create_record] on a zone of triplets only appends.  It
    returns true; when the search accepts a record (same type up to
    case, same relative name, same content as given) the world is as
    before, otherwise the zone is stored with the new record at the
    end and every other record in place. *)
Theorem create_record_appends_or_keeps
        (rtype name content : string) (w : world) :
  Forall is_triplet (parse_records (zone w)) ->
  let recs := parse_records (zone w) in
  let rec := [PyStr.lower rtype; relative_name name;
              _bind_format_target (Some rtype) content] in
  create_record rtype name content w
  = (Ok true,
     match first_index
             (accepts None (Some rtype) (Some (relative_name name))
                      (Some content)) recs with
     | Some _ => w
     | None => store w (recs ++ [rec])
     end).
Proof. exact (create_record_on_triplets rtype name content w). Qed.

(** X8.  [_delete_record] twice.  On a zone of triplets a second call
    with the same arguments finds nothing left to remove: it returns
    false and leaves the world of the first call as it is. *)
Theorem delete_record_twice
        (identifier rtype name content : option string) (w : world) :
  Forall is_triplet (parse_records (zone w)) ->
  exists b w1,
    delete_record identifier rtype name content w = (Ok b, w1)
    /\ delete_record identifier rtype name content w1 = (Ok false, w1).
Proof.
  intros T.
  pose proof (delete_record_on_triplets identifier rtype name content w T)
    as D. cbv zeta in D.
  set (chosen := selected identifier rtype (option_map relative_name name)
                          (option_map (_bind_format_target rtype) content))
    in *.
  set (recs := parse_records (zone w)) in *.
  destruct (filter chosen recs) as [|f fs] eqn:E.
  - exists false, w. split; [exact D|].
    rewrite (delete_record_on_triplets _ _ _ _ w T). cbv zeta.
    fold chosen recs. now rewrite E.
  - exists true, (store w (filter (fun rec => negb (chosen rec)) recs)).
    split; [exact D|].
    assert (P : parse_records
                  (zone (store w (filter (fun rec => negb (chosen rec)) recs)))
                = filter (fun rec => negb (chosen rec)) recs).
    { apply parse_stored, forallb_filter.
      now apply parsed_triplets_storable. }
    rewrite (delete_record_on_triplets _ _ _ _ _); rewrite P.
    + cbv zeta. fold chosen. now rewrite filter_rejected_selected.
    + apply storable_triplets, forallb_filter.
      now apply parsed_triplets_storable.
Qed.

(** X9.  [_delete_record] without any filter removes every record.  On
    a zone with at least one line, whatever the lines hold, it
    returns true and stores the empty text; on the empty zone it
    returns false and stores nothing. *)
Theorem delete_record_without_filter (w : world) :
  delete_record None None None None w
  = match parse_records (zone w) with
    | [] => (Ok false, w)
    | _ :: _ => (Ok true, store w [])
    end
  /\ zone (store w []) = "".
Proof.
  split; [|reflexivity].
  rewrite (delete_record_run nameserver ttl_option base_relative_name).
  cbn [option_map]. rewrite filtered_records_no_filter.
  destruct (parse_records (zone w)) as [|x l] eqn:E; [reflexivity|].
  now rewrite remove_each_all.
Qed.

(** X10.  [_update_record] twice.  On a zone of triplets, when the new
    record is storable, a second call with the same arguments
    returns true and stores the very same records again: the zone
    text does not change. *)
Theorem update_record_twice
        (identifier : option string) (rtype name content : string)
        (w : world) :
  rtype <> "" -> name <> "" -> content <> "" ->
  Forall is_triplet (parse_records (zone w)) ->
  storable [PyStr.lower rtype; relative_name name;
            _bind_format_target (Some rtype) content] = true ->
  exists recs1,
    update_record identifier (Some rtype) (Some name) (Some content) w
    = (Ok true, store w recs1)
    /\ update_record identifier (Some rtype) (Some name) (Some content)
                     (store w recs1)
       = (Ok true, store (store w recs1) recs1)
    /\ zone (store (store w recs1) recs1) = zone (store w recs1).
Proof.
  intros Ht Hn Hc T Hrec.
  pose proof (update_record_on_triplets identifier rtype name content w
                Ht Hn Hc T) as D1. cbv zeta in D1.
  set (recs := parse_records (zone w)) in *.
  set (rec := [PyStr.lower rtype; relative_name name;
               _bind_format_target (Some rtype) content]) in *.
  set (p := accepts identifier (Some rtype) (Some (relative_name name)) None)
    in *.
  assert (Hp : p rec = true)
    by (apply accepts_by_type_name;
        [assumption | apply relative_name_nonempty]).
  assert (Hs : forallb storable recs = true)
    by now apply parsed_triplets_storable.
  set (recs1 := match first_index p recs with
                | Some j => replace_at j rec recs
                | None => (recs ++ [rec])%list
                end) in *.
  assert (Hs1 : forallb storable recs1 = true).
  { unfold recs1. destruct (first_index p recs).
    - now apply forallb_replace_at.
    - rewrite forallb_app, Hs. cbn [forallb]. now rewrite Hrec. }
  assert (P1 : parse_records (zone (store w recs1)) = recs1)
    by now apply parse_stored.
  exists recs1. split; [exact D1|]. split; [|reflexivity].
  rewrite (update_record_on_triplets identifier rtype name content
                                     (store w recs1) Ht Hn Hc);
    rewrite P1; [|now apply storable_triplets].
  cbv zeta. fold rec p. do 2 f_equal.
  unfold recs1. destruct (first_index p recs) as [j|] eqn:F.
  - rewrite (first_index_replace_at p recs j rec F Hp).
    apply replace_at_twice. now apply first_index_some in F.
  - erewrite first_index_app_none; [| exact F | exact Hp].
    apply replace_at_appended.
Qed.

(** X11.  Creating a record and deleting it again.  On a zone of
    triplets that has no record of the given type (up to case) and
    relative name, [_create_record] followed by [_delete_record]
    with the same type, name and content returns true twice and
    leaves the records of the zone as they were. *)
Theorem create_then_delete (rtype name content : string) (w : world) :
  rtype <> "" ->
  Forall is_triplet (parse_records (zone w)) ->
  storable [PyStr.lower rtype; relative_name name;
            _bind_format_target (Some rtype) content] = true ->
  first_type_name rtype (relative_name name) (parse_records (zone w))
  = None ->
  exists w1 w2,
    create_record rtype name content w = (Ok true, w1)
    /\ delete_record None (Some rtype) (Some name) (Some content) w1
       = (Ok true, w2)
    /\ parse_records (zone w2) = parse_records (zone w).
Proof.
  intros Ht T Hrec Hnew.
  pose proof (relative_name_nonempty base_relative_name name) as Hn.
  pose proof (create_record_on_triplets rtype name content w T) as C.
  cbv zeta in C.
  set (recs := parse_records (zone w)) in *.
  set (rec := [PyStr.lower rtype; relative_name name;
               _bind_format_target (Some rtype) content]) in *.
  assert (Hs : forallb storable recs = true)
    by now apply parsed_triplets_storable.
  assert (Hother : Forall (fun r =>
                             accepts None (Some rtype)
                                     (Some (relative_name name))
                                     (Some content) r = false
                             /\ selected None (Some rtype)
                                         (Some (relative_name name))
                                         (Some (_bind_format_target
                                                  (Some rtype) content)) r
                                = false) recs).
  { apply first_type_name_none in Hnew.
    rewrite Forall_forall in Hnew, T. apply Forall_forall. intros r Hr.
    apply other_type_name_not_matched; auto. }
  rewrite first_index_all_false in C
    by (eapply Forall_impl; [|exact Hother]; cbv beta; tauto).
  assert (Hs1 : forallb storable (recs ++ [rec]) = true).
  { rewrite forallb_app, Hs. cbn [forallb]. now rewrite Hrec. }
  exists (store w (recs ++ [rec])), (store (store w (recs ++ [rec])) recs).
  split; [exact C|].
  assert (P1 : parse_records (zone (store w (recs ++ [rec])))
               = (recs ++ [rec])%list) by now apply parse_stored.
  split; [|now apply parse_stored].
  rewrite (delete_record_on_triplets _ _ _ _ _); rewrite P1;
    [|now apply storable_triplets].
  cbv zeta. cbn [option_map].
  set (chosen := selected None (Some rtype) (Some (relative_name name))
                          (Some (_bind_format_target (Some rtype) content))).
  assert (Hc : Forall (fun r => chosen r = false) recs)
    by (eapply Forall_impl; [|exact Hother]; cbv beta; tauto).
  destruct (filter_all_false chosen recs Hc) as [F1 F2].
  assert (Hown : chosen rec = true) by now apply own_record_selected.
  rewrite !filter_app, F1, F2. cbn [filter]. rewrite Hown. cbn [negb app].
  now rewrite app_nil_r.
Qed.
End Composition.

(** ** The identifier and the target format *)

Lemma str_forallb_app (p : ascii -> bool) (a b : string) :
  str_forallb p (a ++ b) = str_forallb p a && str_forallb p b.
Proof.
  induction a as [|c a IH]; simpl; [reflexivity|].
  now rewrite IH, andb_assoc.
Qed.

Lemma str_forallb_substring (p : ascii -> bool) (s : string) :
  forall n m, str_forallb p s = true ->
              str_forallb p (substring n m s) = true.
Proof.
  induction s as [|c s IH]; intros n m H.
  - destruct n, m; reflexivity.
  - simpl in H. apply andb_true_iff in H as [Hc Hs].
    destruct n as [|n].
    + destruct m as [|m]; [reflexivity|]. simpl. now rewrite Hc, IH.
    + simpl. now apply IH.
Qed.

Lemma hex_digit_is_hex (v : Z) :
  0 <= v < 16 -> is_hex_digit (SHA256.hex_digit v) = true.
Proof.
  intros H.
  assert (E : v = 0 \/ v = 1 \/ v = 2 \/ v = 3 \/ v = 4 \/ v = 5 \/ v = 6
              \/ v = 7 \/ v = 8 \/ v = 9 \/ v = 10 \/ v = 11 \/ v = 12
              \/ v = 13 \/ v = 14 \/ v = 15) by lia.
  repeat (destruct E as [-> | E]; [reflexivity|]). now subst.
Qed.

Lemma hex_word_is_hex (digits : nat) (x : Z) :
  str_forallb is_hex_digit (SHA256.hex_word digits x) = true.
Proof.
  induction digits as [|k IH]; [reflexivity|].
  cbn [SHA256.hex_word str_forallb]. rewrite IH, andb_true_r.
  apply hex_digit_is_hex. apply Z.mod_pos_bound. lia.
Qed.

Lemma hexdigest_is_hex (h : SHA256.hasher) :
  str_forallb is_hex_digit (SHA256.hexdigest h) = true.
Proof.
  unfold SHA256.hexdigest, SHA256.hex.
  now rewrite !str_forallb_app, !hex_word_is_hex.
Qed.

(** X13.  The form of an identifier.  The identifier of a triplet is a
    string of 7 digits among [0-9a-f], and it is the same for two
    triplets that differ only in the case of the type. *)
Theorem identifier_format (rtype name content : string) :
  exists i,
    _identifier [rtype; name; content] = Ok i
    /\ String.length i = 7%nat
    /\ str_forallb is_hex_digit i = true
    /\ _identifier [PyStr.lower rtype; name; content] = Ok i.
Proof.
  eexists. split; [apply identifier_triplet|]. split; [|split].
  - apply substring_length. rewrite hexdigest_length. lia.
  - apply str_forallb_substring, hexdigest_is_hex.
  - rewrite identifier_triplet, lower_idempotent. reflexivity.
Qed.

Lemma endswith_dot_app (s : string) : PyStr.endswith_dot (s ++ ".") = true.
Proof.
  induction s as [|c s IH]; [reflexivity|].
  destruct s as [|d s]; [reflexivity|]. exact IH.
Qed.

(** X14.  The format of a target.  Formatting twice is formatting once;
    for the type [CNAME] the result always ends with a dot; the result
    is the target itself or, for the type [CNAME] only, the target
    followed by a dot. *)
Theorem bind_format_target_canonical (rtype : option string)
        (target : string) :
  _bind_format_target rtype (_bind_format_target rtype target)
  = _bind_format_target rtype target
  /\ PyStr.endswith_dot (_bind_format_target (Some "CNAME") target) = true
  /\ (_bind_format_target rtype target = target
      \/ (rtype = Some "CNAME"
          /\ _bind_format_target rtype target = target ++ ".")).
Proof.
  assert (D : forall r, _bind_format_target r target = target
                        \/ (r = Some "CNAME"
                            /\ PyStr.endswith_dot target = false
                            /\ _bind_format_target r target = target ++ ".")).
  { intros r. unfold _bind_format_target.
    destruct r as [t|]; [|now left].
    destruct (String.eqb_spec t "CNAME") as [-> | _]; [|now left].
    destruct (PyStr.endswith_dot target); [now left | right; auto]. }
  split; [|split].
  - destruct (D rtype) as [E | [-> [_ E]]].
    + now rewrite !E.
    + rewrite E. unfold _bind_format_target at 1.
      now rewrite endswith_dot_app.
  - destruct (D (Some "CNAME")) as [E | [_ [_ E]]].
    + unfold _bind_format_target in *. cbn [String.eqb andb] in *.
      change (("CNAME" =? "CNAME")%string) with true in *. cbn [andb] in *.
      destruct (PyStr.endswith_dot target) eqn:Dot; [exact Dot|].
      cbn [negb] in *. apply endswith_dot_app.
    + rewrite E. apply endswith_dot_app.
  - destruct (D rtype) as [E | [-> [_ E]]]; [now left | right; auto].
Qed.

(** ** Listing the records *)

Section ListingProperties.

Variable self_ttl : Z.
Variable domain : string.
Variable base_full_name : string -> string.
Variable str_upper : string -> string.
Variable nameserver : string.
Variable ttl_option : option Z.
Variable base_relative_name : string -> string.

Local Notation full_name := (_full_name domain base_full_name).
Local Notation list_records :=
  (_list_records self_ttl domain base_full_name str_upper).
Local Notation entry :=
  (exposed_of self_ttl domain base_full_name str_upper).
Local Notation delete_record :=
  (_delete_record nameserver ttl_option base_relative_name).
Local Notation store := (stored nameserver ttl_option).

Lemma processed_record_result (rec : record) :
  processed_record self_ttl domain base_full_name str_upper rec
  = if (3 <=? List.length rec)%nat then Ok (entry rec)
    else Raise IndexError.
Proof.
  destruct rec as [|x [|y [|z more]]]; reflexivity.
Qed.

Lemma list_loop_result (recs : list record)
      (rtype fname content : option string) :
  list_loop self_ttl domain base_full_name str_upper recs
            rtype fname content
  = if forallb (fun rec => (3 <=? List.length rec)%nat) recs
    then Ok (filter (list_keeps rtype fname content) (map entry recs))
    else Raise IndexError.
Proof.
  induction recs as [|rec rest IH]; [reflexivity|].
  cbn [list_loop forallb map filter]. rewrite processed_record_result.
  destruct (3 <=? List.length rec)%nat; [|reflexivity].
  cbn [rbind andb]. rewrite IH.
  match goal with
  | |- context [forallb ?f rest] => destruct (forallb f rest)
  end; reflexivity.
Qed.

Lemma list_records_run (rtype name content : option string) (w : world) :
  list_records rtype name content w
  = if forallb (fun rec => (3 <=? List.length rec)%nat)
               (parse_records (zone w))
    then (Ok (filter (list_keeps rtype (option_map full_name (given name))
                                 content)
                     (map entry (parse_records (zone w)))), w)
    else (Raise IndexError, w).
Proof.
  unfold _list_records, bind, lift, _get_resource_record_sets,
    _get_records, bind, ret.
  rewrite list_loop_result.
  match goal with
  | |- context [forallb ?f (parse_records (zone w))] =>
      destruct (forallb f (parse_records (zone w)))
  end; reflexivity.
Qed.

(** X15.  What [_list_records] returns.  It never changes the world.
    When every tuple of the zone has its three fields, it returns
    the entries of the records that pass the given tests, in the
    order of the zone; when some tuple is shorter it raises an index
    error, whatever the filter. *)
Theorem list_records_result (rtype name content : option string)
        (w : world) :
  list_records rtype name content w
  = if forallb (fun rec => (3 <=? List.length rec)%nat)
               (parse_records (zone w))
    then (Ok (filter (list_keeps rtype (option_map full_name (given name))
                                 content)
                     (map entry (parse_records (zone w)))), w)
    else (Raise IndexError, w).
Proof. exact (list_records_run rtype name content w). Qed.

Lemma list_records_all (w : world) :
  Forall is_triplet (parse_records (zone w)) ->
  list_records None None None w
  = (Ok (map entry (parse_records (zone w))), w).
Proof.
  intros T.
  unfold _list_records, bind, lift, _get_resource_record_sets,
    _get_records, bind, ret.
  rewrite list_loop_result.
  assert (F : forallb (fun rec => (3 <=? List.length rec)%nat)
                      (parse_records (zone w)) = true).
  { apply forallb_forall. intros rec Hr.
    rewrite Forall_forall in T. rewrite (T rec Hr). reflexivity. }
  rewrite F. f_equal. f_equal. cbn [given option_map].
  apply forallb_filter_id. apply forallb_forall. reflexivity.
Qed.

(** X16.  Listing without a filter.  On a zone of triplets
    [_list_records] returns one entry for each record, in order; the
    entry holds the content of the record as it stands, the
    identifier of the record, the full name of its name and the
    [ttl] of the instance. *)
Theorem list_records_unfiltered (w : world) :
  Forall is_triplet (parse_records (zone w)) ->
  exists listing,
    list_records None None None w = (Ok listing, w)
    /\ List.length listing = List.length (parse_records (zone w))
    /\ Forall2 (fun rec e =>
                  ex_content e = nth 2 rec ""
                  /\ _identifier rec = Ok (ex_id e)
                  /\ ex_name e = full_name (nth 1 rec "")
                  /\ ex_ttl e = self_ttl)
               (parse_records (zone w)) listing.
Proof.
  intros T. exists (map entry (parse_records (zone w))).
  split; [now apply list_records_all|]. split; [apply length_map|].
  induction T as [|rec rest Hrec _ IH]; [constructor|].
  cbn [map]. constructor; [|exact IH].
  destruct rec as [|x [|y [|z [|u more]]]]; try discriminate.
  unfold exposed_of. rewrite identifier_triplet. cbn. auto.
Qed.

(** X17.  Deleting by a listed identifier.  For every entry that
    [_list_records] returns without a filter, [_delete_record] with
    the identifier of the entry and nothing else returns true and
    stores the zone without the records of that identifier: fewer
    records, none of them with the identifier. *)
Theorem delete_listed_identifier (w : world) (listing : list exposed)
        (e : exposed) :
  list_records None None None w = (Ok listing, w) ->
  In e listing ->
  let others :=
    filter (fun rec => negb (selected (Some (ex_id e)) None None None rec))
           (parse_records (zone w)) in
  delete_record (Some (ex_id e)) None None None w
  = (Ok true, store w others)
  /\ (List.length others < List.length (parse_records (zone w)))%nat
  /\ Forall (fun rec => _identifier rec <> Ok (ex_id e)) others.
Proof.
  intros L He others.
  rewrite list_records_run in L.
  destruct (forallb (fun rec => (3 <=? List.length rec)%nat)
                    (parse_records (zone w))) eqn:F; [|discriminate].
  assert (T : Forall is_triplet (parse_records (zone w))).
  { rewrite forallb_forall in F. apply Forall_forall. intros rec Hr.
    specialize (F rec Hr). apply Nat.leb_le in F.
    unfold parse_records in Hr. apply in_map_iff in Hr as [line [<- _]].
    pose proof (re_split_from_length line 2 false "") as B.
    unfold is_triplet, PyStr.re_split_space in *. lia. }
  injection L as <-.
  apply filter_In in He as [He _].
  apply in_map_iff in He as [rec [<- Hrec]].
  assert (Tr : is_triplet rec) by (rewrite Forall_forall in T; auto).
  destruct rec as [|x [|y [|z [|u more]]]]; try discriminate.
  pose proof (identifier_triplet x y z) as I.
  set (i := ex_id (entry [x; y; z])) in *.
  assert (Ei : _identifier [x; y; z] = Ok i)
    by (unfold i, exposed_of; cbn [ex_id]; rewrite I; reflexivity).
  assert (Hne : i <> "")
    by (apply identifier_length in Ei; intros ->; discriminate).
  assert (S : forall r, is_triplet r ->
                        selected (Some i) None None None r
                        = match _identifier r with
                          | Ok j => String.eqb j i
                          | Raise _ => false
                          end).
  { intros r Hr. destruct r as [|a [|b [|c [|d r]]]]; try discriminate.
    unfold selected, delete_selects. rewrite check_some by exact Hne.
    rewrite !check_none. rewrite identifier_triplet. cbn [rbind].
    destruct (String.eqb _ i); reflexivity. }
  pose proof (delete_record_on_triplets nameserver ttl_option
                base_relative_name (Some i) None None None w T) as D.
  cbv zeta in D. cbn [option_map] in D.
  assert (Hin : In [x; y; z]
                   (filter (selected (Some i) None None None)
                           (parse_records (zone w)))).
  { apply filter_In. split; [exact Hrec|].
    rewrite S by exact Tr. rewrite Ei. apply String.eqb_refl. }
  split; [|split].
  - rewrite D.
    destruct (filter (selected (Some i) None None None)
                     (parse_records (zone w))); [contradiction|].
    reflexivity.
  - pose proof (filter_length (selected (Some i) None None None)
                              (parse_records (zone w))) as Len.
    fold others in Len.
    destruct (filter (selected (Some i) None None None)
                     (parse_records (zone w))); [contradiction|].
    simpl in Len. lia.
  - apply Forall_forall. intros r Hr. unfold others in Hr.
    apply filter_In in Hr as [Hr Hs]. apply negb_true_iff in Hs.
    rewrite S in Hs by (rewrite Forall_forall in T; auto).
    intros E. rewrite E, String.eqb_refl in Hs. discriminate.
Qed.

(** X18.  Listing by a name as it is stored.  On a zone of triplets
    [_list_records] with a name filter, and no other filter, lists
    every record whose name field is that name. *)
Theorem list_records_by_stored_name (name : string) (w : world)
        (rec : record) :
  name <> "" ->
  Forall is_triplet (parse_records (zone w)) ->
  In rec (parse_records (zone w)) ->
  nth 1 rec "" = name ->
  exists listing,
    list_records None (Some name) None w = (Ok listing, w)
    /\ In (entry rec) listing.
Proof.
  intros Hn T Hin Hname. rewrite list_records_run.
  assert (F : forallb (fun rec => (3 <=? List.length rec)%nat)
                      (parse_records (zone w)) = true).
  { apply forallb_forall. intros r Hr.
    rewrite Forall_forall in T. rewrite (T r Hr). reflexivity. }
  rewrite F. eexists. split; [reflexivity|].
  apply filter_In. split; [now apply in_map|].
  unfold list_keeps. rewrite (given_some name) by exact Hn.
  cbn [option_map]. change (given None) with (@None string).
  destruct (given (Some (full_name name))) as [fn|] eqn:G;
    [|reflexivity].
  assert (fn = full_name name)
    by (destruct (full_name name); cbn in G; congruence).
  subst fn. unfold exposed_of at 1. cbn [ex_name].
  now rewrite Hname, String.eqb_refl.
Qed.

End ListingProperties.

(** ** The further properties on concrete zones *)

Lemma update_record_replaces_or_appends_witness :
  _update_record "valuedomain1" None (fun name => name)
                 (Some "28002dd") (Some "A") (Some "mail") (Some "5.6.7.8")
                 (mkWorld ("a www 1.1.1.1" ++ LF ++ "txt www hello"
                           ++ LF ++ "a mail 2.2.2.2") [])
  = (Ok true,
     stored "valuedomain1" None
            (mkWorld ("a www 1.1.1.1" ++ LF ++ "txt www hello"
                      ++ LF ++ "a mail 2.2.2.2") [])
            [["a"; "www"; "1.1.1.1"]; ["a"; "mail"; "5.6.7.8"];
             ["a"; "mail"; "2.2.2.2"]]).
Proof.
  rewrite (update_record_replaces_or_appends
             "valuedomain1" None (fun name => name)
             (Some "28002dd") "A" "mail" "5.6.7.8").
  - vm_compute. reflexivity.
  - discriminate.
  - discriminate.
  - discriminate.
  - vm_compute. repeat constructor.
Defined.

Lemma create_record_appends_or_keeps_witness :
  _create_record "valuedomain1" None (fun name => name)
                 "TXT" "www" "hello"
                 (mkWorld ("a www 1.1.1.1" ++ LF ++ "txt www hello") [])
  = (Ok true, mkWorld ("a www 1.1.1.1" ++ LF ++ "txt www hello") [])
  /\ _create_record "valuedomain1" None (fun name => name)
                    "TXT" "www" "bye"
                    (mkWorld ("a www 1.1.1.1" ++ LF ++ "txt www hello") [])
     = (Ok true,
        stored "valuedomain1" None
               (mkWorld ("a www 1.1.1.1" ++ LF ++ "txt www hello") [])
               [["a"; "www"; "1.1.1.1"]; ["txt"; "www"; "hello"];
                ["txt"; "www"; "bye"]]).
Proof.
  split.
  - rewrite (create_record_appends_or_keeps
               "valuedomain1" None (fun name => name) "TXT" "www" "hello").
    + vm_compute. reflexivity.
    + vm_compute. repeat constructor.
  - rewrite (create_record_appends_or_keeps
               "valuedomain1" None (fun name => name) "TXT" "www" "bye").
    + vm_compute. reflexivity.
    + vm_compute. repeat constructor.
Defined.

Lemma delete_record_twice_witness :
  exists b w1,
    _delete_record "valuedomain1" None (fun name => name)
                   None (Some "A") (Some "www") None
                   (mkWorld ("a www 1.1.1.1" ++ LF ++ "txt www hello"
                             ++ LF ++ "a www 2.2.2.2") [])
    = (Ok b, w1)
    /\ _delete_record "valuedomain1" None (fun name => name)
                      None (Some "A") (Some "www") None w1
       = (Ok false, w1).
Proof.
  apply (delete_record_twice "valuedomain1" None (fun name => name)
                             None (Some "A") (Some "www") None).
  vm_compute. repeat constructor.
Defined.

Lemma update_record_twice_witness :
  exists recs1,
    _update_record "valuedomain1" None (fun name => name)
                   None (Some "CNAME") (Some "foo") (Some "example.com")
                   (mkWorld "a www 1.1.1.1" [])
    = (Ok true, stored "valuedomain1" None (mkWorld "a www 1.1.1.1" []) recs1)
    /\ _update_record "valuedomain1" None (fun name => name)
                      None (Some "CNAME") (Some "foo") (Some "example.com")
                      (stored "valuedomain1" None
                              (mkWorld "a www 1.1.1.1" []) recs1)
       = (Ok true,
          stored "valuedomain1" None
                 (stored "valuedomain1" None (mkWorld "a www 1.1.1.1" [])
                         recs1) recs1)
    /\ zone (stored "valuedomain1" None
                    (stored "valuedomain1" None (mkWorld "a www 1.1.1.1" [])
                            recs1) recs1)
       = zone (stored "valuedomain1" None (mkWorld "a www 1.1.1.1" []) recs1).
Proof.
  apply (update_record_twice "valuedomain1" None (fun name => name)
                             None "CNAME" "foo" "example.com").
  - discriminate.
  - discriminate.
  - discriminate.
  - vm_compute. repeat constructor.
  - reflexivity.
Defined.

Lemma create_then_delete_witness :
  exists w1 w2,
    _create_record "valuedomain1" None (fun name => name)
                   "CNAME" "foo" "example.com" (mkWorld "a www 1.1.1.1" [])
    = (Ok true, w1)
    /\ _delete_record "valuedomain1" None (fun name => name)
                      None (Some "CNAME") (Some "foo") (Some "example.com") w1
       = (Ok true, w2)
    /\ parse_records (zone w2)
       = parse_records (zone (mkWorld "a www 1.1.1.1" [])).
Proof.
  apply (create_then_delete "valuedomain1" None (fun name => name)
                            "CNAME" "foo" "example.com").
  - discriminate.
  - vm_compute. repeat constructor.
  - reflexivity.
  - reflexivity.
Defined.

Lemma create_record_twice_stored_as_given_witness :
  exists w1,
    _create_record "valuedomain1" None (fun name => name)
                   "A" "www" "1.2.3.4" (mkWorld "txt @ hello" [])
    = (Ok true, w1)
    /\ _create_record "valuedomain1" None (fun name => name)
                      "A" "www" "1.2.3.4" w1
       = (Ok true, w1)
    /\ (w1 = mkWorld "txt @ hello" []
        \/ parse_records (zone w1)
           = (parse_records (zone (mkWorld "txt @ hello" []))
              ++ [["a"; "www"; "1.2.3.4"]])%list).
Proof.
  apply (create_record_twice_stored_as_given
           "valuedomain1" None (fun name => name) "A" "www" "1.2.3.4").
  - reflexivity.
  - reflexivity.
Defined.

(** The types of this zone are in upper case already, and its names are
    relative to [example.com]. *)
Lemma list_records_unfiltered_witness :
  exists listing,
    _list_records 3600 "example.com" (fun name => name ++ ".example.com")
                  (fun s => s) None None None
                  (mkWorld ("A www 1.2.3.4" ++ LF ++ "TXT mail hello") [])
    = (Ok listing, mkWorld ("A www 1.2.3.4" ++ LF ++ "TXT mail hello") [])
    /\ List.length listing
       = List.length (parse_records ("A www 1.2.3.4" ++ LF ++ "TXT mail hello"))
    /\ Forall2 (fun rec e =>
                  ex_content e = nth 2 rec ""
                  /\ _identifier rec = Ok (ex_id e)
                  /\ ex_name e
                     = _full_name "example.com"
                                  (fun name => name ++ ".example.com")
                                  (nth 1 rec "")
                  /\ ex_ttl e = 3600)
               (parse_records ("A www 1.2.3.4" ++ LF ++ "TXT mail hello"))
               listing.
Proof.
  apply (list_records_unfiltered
           3600 "example.com" (fun name => name ++ ".example.com")
           (fun s => s)
           (mkWorld ("A www 1.2.3.4" ++ LF ++ "TXT mail hello") [])).
  vm_compute. repeat constructor.
Defined.

Lemma delete_listed_identifier_witness :
  _delete_record "valuedomain1" None (fun name => name)
                 (Some "9facceb") None None None
                 (mkWorld ("A www 1.2.3.4" ++ LF ++ "TXT mail hello") [])
  = (Ok true,
     stored "valuedomain1" None
            (mkWorld ("A www 1.2.3.4" ++ LF ++ "TXT mail hello") [])
            [["TXT"; "mail"; "hello"]]).
Proof.
  pose proof (delete_listed_identifier
                3600 "example.com" (fun name => name ++ ".example.com")
                (fun s => s) "valuedomain1" None (fun name => name)
                (mkWorld ("A www 1.2.3.4" ++ LF ++ "TXT mail hello") [])
                [mkExposed "A" "www.example.com" 3600 "1.2.3.4" "9facceb";
                 mkExposed "TXT" "mail.example.com" 3600 "hello" "bc58afa"]
                (mkExposed "A" "www.example.com" 3600 "1.2.3.4" "9facceb"))
    as P.
  destruct P as [D _].
  - vm_compute. reflexivity.
  - left. reflexivity.
  - cbn [ex_id] in D. rewrite D. vm_compute. reflexivity.
Defined.

Lemma list_records_by_stored_name_witness :
  exists listing,
    _list_records 3600 "example.com" (fun name => name ++ ".example.com")
                  (fun s => s) None (Some "mail") None
                  (mkWorld ("A www 1.2.3.4" ++ LF ++ "TXT mail hello") [])
    = (Ok listing, mkWorld ("A www 1.2.3.4" ++ LF ++ "TXT mail hello") [])
    /\ In (exposed_of 3600 "example.com" (fun name => name ++ ".example.com")
                      (fun s => s) ["TXT"; "mail"; "hello"])
          listing.
Proof.
  apply (list_records_by_stored_name
           3600 "example.com" (fun name => name ++ ".example.com")
           (fun s => s) "mail"
           (mkWorld ("A www 1.2.3.4" ++ LF ++ "TXT mail hello") [])
           ["TXT"; "mail"; "hello"]).
  - discriminate.
  - vm_compute. repeat constructor.
  - right. left. reflexivity.
  - reflexivity.
Defined.

(** ** The final dot of a CNAME target *)

Section CnameTarget.

Variable nameserver : string.
Variable ttl_option : option Z.
Variable base_relative_name : string -> string.

Local Notation relative_name := (_relative_name base_relative_name).
Local Notation create_record :=
  (_create_record nameserver ttl_option base_relative_name).
Local Notation update_record :=
  (_update_record nameserver ttl_option base_relative_name).
Local Notation store := (stored nameserver ttl_option).


End CnameTarget.



(** With the type in lower case the target is stored as given. *)
Example create_lower_case_cname :
  _create_record "valuedomain1" None (fun name => name)
                 "cname" "foo" "example.com" (mkWorld "" [])
  = (Ok true,
     stored "valuedomain1" None (mkWorld "" [])
            [["cname"; "foo"; "example.com"]]).
Proof. reflexivity. Qed.
